(** * link-fusion: the redirect-and-analytics pipeline

    A shallow embedding of [core/utils.py], [core/models.py] and the
    [RedirectView] of [core/views.py], together with the properties the
    specification states about them.

    Conventions.
    - Python [str] values that come from an HTTP request are sequences of
      Latin-1 characters (the server decodes header bytes that way), so a
      [string] of 8-bit [ascii] characters represents them exactly.
    - A Python name that may hold [None] is an [option].
    - External collaborators (the HTTP client, the [user_agents] parser,
      the clock, the password hasher, the scheme check of the redirect
      response) are oracles gathered in [Env]; every call that leaves the
      process is appended to a log kept in the world state.
    - The storage layer refuses a click row without a client address
      ([IntegrityError]); the redirect response refuses a target whose
      scheme is not allowed ([DisallowedRedirect]).
    - Exceptions are explicit: a computation yields [Ret v] or [Raise e]. *)

From Stdlib Require Import ZArith Ascii String List Bool Lia.
From stdpp Require Import base option list gmap strings.

Local Open Scope string_scope.
#[local] Set Warnings "-register-all".


(* ================================================================== *)
(** ** Strings as Python sees them *)
(* ================================================================== *)

(** [str.lower()] on one Latin-1 character: [A-Z] and the accented
    capitals U+00C0..U+00DE (the multiplication sign U+00D7 apart) move up
    by 32, every other character is left alone. *)
Definition lower_char (c : ascii) : ascii :=
  let n := N_of_ascii c in
  if ((65 <=? n) && (n <=? 90) ||
      (192 <=? n) && (n <=? 222) && negb (n =? 215))%N
  then ascii_of_N (n + 32)
  else c.

Fixpoint lower (s : string) : string :=
  match s with
  | EmptyString => EmptyString
  | String c s' => String (lower_char c) (lower s')
  end.

(** [sub in s] for two strings: [sub] occurs in [s] as a contiguous run. *)
Fixpoint contains (sub s : string) : bool :=
  String.prefix sub s ||
  match s with
  | EmptyString => false
  | String _ s' => contains sub s'
  end.

(** [s[:n]] *)
Fixpoint str_take (n : nat) (s : string) : string :=
  match n, s with
  | O, _ => EmptyString
  | S _, EmptyString => EmptyString
  | S n', String c s' => String c (str_take n' s')
  end.

(** Truth value of a [str]: only the empty string is falsy. *)
Definition str_truthy (s : string) : bool :=
  match s with
  | EmptyString => false
  | String _ _ => true
  end.

(* ================================================================== *)
(** ** [core/utils.py]: the fallback user-agent classifier *)
(* ================================================================== *)

(** The dict returned by [parse_user_agent] and its fallback. *)
Record ua_data := {
  ua_device_type : string;
  ua_browser : string;
  ua_operating_system : string
}.

Definition parse_user_agent_fallback (user_agent_string : string) : ua_data :=
  let ua := lower user_agent_string in
  let device_type :=
    if existsb (fun mobile => contains mobile ua)
               ["mobile"; "android"; "iphone"; "ipod"]
    then "Mobile"
    else if contains "ipad" ua || contains "tablet" ua then "Tablet"
    else "Desktop" in
  let browser :=
    if contains "chrome" ua && negb (contains "edge" ua) then "Chrome"
    else if contains "firefox" ua then "Firefox"
    else if contains "safari" ua && negb (contains "chrome" ua) then "Safari"
    else if contains "edge" ua then "Edge"
    else if contains "opera" ua || contains "opr" ua then "Opera"
    else if contains "msie" ua || contains "trident" ua
         then "Internet Explorer"
    else "Unknown" in
  let operating_system :=
    if contains "windows" ua then "Windows"
    else if contains "macintosh" ua || contains "mac os" ua then "macOS"
    else if contains "linux" ua then "Linux"
    else if contains "android" ua then "Android"
    else if contains "ios" ua || contains "iphone" ua || contains "ipad" ua
         then "iOS"
    else "Unknown" in
  {| ua_device_type := device_type;
     ua_browser := browser;
     ua_operating_system := operating_system |}.

(** *** The keyword table of the specification

    The specification describes the fallback as a lookup in a fixed,
    ordered keyword table.  A rule fires when one of its keywords occurs
    and none of its blocking keywords does; the first rule that fires
    gives the label. *)
Record keyword_rule := {
  any_of : list string;
  unless : list string;
  label : string
}.

Definition rule_fires (ua : string) (r : keyword_rule) : bool :=
  existsb (fun k => contains k ua) (any_of r) &&
  negb (existsb (fun k => contains k ua) (unless r)).

Fixpoint first_match (table : list keyword_rule) (default ua : string)
  : string :=
  match table with
  | [] => default
  | r :: rest =>
      if rule_fires ua r then label r else first_match rest default ua
  end.

Definition device_table : list keyword_rule :=
  [ {| any_of := ["mobile"; "android"; "iphone"; "ipod"];
       unless := []; label := "Mobile" |};
    {| any_of := ["ipad"; "tablet"]; unless := []; label := "Tablet" |} ].

Definition browser_table : list keyword_rule :=
  [ {| any_of := ["chrome"]; unless := ["edge"]; label := "Chrome" |};
    {| any_of := ["firefox"]; unless := []; label := "Firefox" |};
    {| any_of := ["safari"]; unless := ["chrome"]; label := "Safari" |};
    {| any_of := ["edge"]; unless := []; label := "Edge" |};
    {| any_of := ["opera"; "opr"]; unless := []; label := "Opera" |};
    {| any_of := ["msie"; "trident"]; unless := [];
       label := "Internet Explorer" |} ].

Definition os_table : list keyword_rule :=
  [ {| any_of := ["windows"]; unless := []; label := "Windows" |};
    {| any_of := ["macintosh"; "mac os"]; unless := []; label := "macOS" |};
    {| any_of := ["linux"]; unless := []; label := "Linux" |};
    {| any_of := ["android"]; unless := []; label := "Android" |};
    {| any_of := ["ios"; "iphone"; "ipad"]; unless := []; label := "iOS" |} ].

Definition classify_by_table (user_agent_string : string) : ua_data :=
  let ua := lower user_agent_string in
  {| ua_device_type := first_match device_table "Desktop" ua;
     ua_browser := first_match browser_table "Unknown" ua;
     ua_operating_system := first_match os_table "Unknown" ua |}.

(* ================================================================== *)
(** ** Python values, exceptions and the external world *)
(* ================================================================== *)

(** What [response.json()] can hand back.  A JSON number is kept as an
    integer: the code only asks whether it is zero. *)
Inductive jvalue :=
| JNull
| JBool (b : bool)
| JNum (z : Z)
| JStr (s : string)
| JArr (l : list jvalue)
| JObj (d : list (string * jvalue)).

(** Python's truth value of such a value. *)
Definition truthy (v : jvalue) : bool :=
  match v with
  | JNull => false
  | JBool b => b
  | JNum z => negb (z =? 0)%Z
  | JStr s => str_truthy s
  | JArr l => match l with [] => false | _ :: _ => true end
  | JObj d => match d with [] => false | _ :: _ => true end
  end.

(** The exceptions that occur on the modelled paths; all of them are
    subclasses of [Exception]. *)
Inductive exn :=
| RequestException
| JSONDecodeError
| AttributeError
| TypeError
| ParserError
| Http404
| DoesNotExist
| IntegrityError
| DisallowedRedirect.

Inductive outcome (A : Type) :=
| Ret (a : A)
| Raise (e : exn).
Arguments Ret {A} a.
Arguments Raise {A} e.

(** [requests.Response]: the status code and the parsed body, [None] when
    the body is not JSON (then [response.json()] raises). *)
Record http_response := {
  status_code : Z;
  json : option jvalue
}.

(** The object [user_agents.parse] returns. *)
Record ua_info := {
  is_mobile : bool;
  is_tablet : bool;
  is_pc : bool;
  browser_family : string;
  browser_version_string : string;
  os_family : string;
  os_version_string : string
}.

(** The collaborators outside the repository.
    - [now]: [timezone.now()], in seconds;
    - [requests_get url]: [requests.get(url, timeout=5)]; a timeout or a
      connection error is [Raise RequestException];
    - [ua_parse]: [user_agents.parse], [None] when the import failed
      ([HAS_USER_AGENTS = False]);
    - [make_password salt raw] and [hashers_check_password raw encoded]:
      [django.contrib.auth.hashers];
    - [redirect_accepted url]: whether [HttpResponseRedirect(url)] can be
      built; Django refuses a target that has a scheme, as
      [urllib.parse.urlparse] finds it, other than http, https or ftp by
      raising [DisallowedRedirect]. *)
Record Env := {
  now : Z;
  requests_get : string -> outcome http_response;
  ua_parse : option (string -> outcome ua_info);
  make_password : string -> string -> string;
  hashers_check_password : string -> string -> bool;
  redirect_accepted : string -> bool
}.

(** Calls that leave the process. *)
Inductive event :=
| HttpGet (url : string)
| UaParse (ua : string).

(* ================================================================== *)
(** ** [core/models.py]: the rows *)
(* ================================================================== *)

(** [ShortenedURL].  The relations to users, domains and groups play no
    part on the redirect path and are left out. *)
Record ShortenedURL := {
  original_url : string;
  short_code : string;
  title : string;
  description : string;
  clicks : nat;
  is_active : bool;
  created_at : Z;
  updated_at : Z;
  expires_at : option Z;
  password : string;
  max_clicks : option nat
}.

(** [Click].  [url] is the short code of the link the click belongs to;
    [pk] is [None] until the row has been inserted.  [country] and [city]
    hold whatever the geolocator returned. *)
Record Click := {
  pk : option Z;
  url : string;
  ip_address : option string;
  user_agent : string;
  referer : string;
  country : jvalue;
  city : jvalue;
  device_type : string;
  browser : string;
  operating_system : string;
  clicked_at : option Z
}.

(** The storage layer and the log of outside calls. *)
Record World := {
  links : gmap string ShortenedURL;
  click_records : list Click;
  calls : list event
}.

(* ================================================================== *)
(** ** A state-and-exception monad for the effectful code *)
(* ================================================================== *)

Definition M (A : Type) : Type := World -> outcome A * World.

Definition ret {A} (a : A) : M A := fun w => (Ret a, w).

Definition raise {A} (e : exn) : M A := fun w => (Raise e, w).

Definition bind {A B} (m : M A) (k : A -> M B) : M B :=
  fun w =>
    match m w with
    | (Ret a, w') => k a w'
    | (Raise e, w') => (Raise e, w')
    end.

(** [try: body except Exception as e: handler] *)
Definition try_except {A} (body : M A) (handler : exn -> M A) : M A :=
  fun w =>
    match body w with
    | (Ret a, w') => (Ret a, w')
    | (Raise e, w') => handler e w'
    end.

Definition lift {A} (o : outcome A) : M A := fun w => (o, w).

Definition log (e : event) : M unit :=
  fun w =>
    (Ret tt, {| links := links w;
                click_records := click_records w;
                calls := calls w ++ [e] |}).

Notation "x <- m ;; k" := (bind m (fun x => k))
  (at level 100, m at next level, right associativity).

(* ================================================================== *)
(** ** [core/utils.py]: [parse_user_agent] *)
(* ================================================================== *)

Definition unknown_ua : ua_data :=
  {| ua_device_type := "Unknown";
     ua_browser := "Unknown";
     ua_operating_system := "Unknown" |}.

(** The [try] body of [parse_user_agent]. *)
Definition parse_with_library (parse : string -> outcome ua_info)
    (user_agent_string : string) : M ua_data :=
  _ <- log (UaParse user_agent_string) ;;
  user_agent <- lift (parse user_agent_string) ;;
  let device_type :=
    if is_mobile user_agent then "Mobile"
    else if is_tablet user_agent then "Tablet"
    else if is_pc user_agent then "Desktop"
    else "Unknown" in
  let browser :=
    if str_truthy (browser_version_string user_agent)
    then browser_family user_agent +:+ " " +:+
         browser_version_string user_agent
    else browser_family user_agent in
  let operating_system :=
    if str_truthy (os_version_string user_agent)
    then os_family user_agent +:+ " " +:+ os_version_string user_agent
    else os_family user_agent in
  ret {| ua_device_type := device_type;
         ua_browser := str_take 100 browser;
         ua_operating_system := str_take 100 operating_system |}.

Definition parse_user_agent (env : Env) (user_agent_string : string)
  : M ua_data :=
  if negb (str_truthy user_agent_string) then ret unknown_ua
  else
    match ua_parse env with
    | Some parse =>
        try_except (parse_with_library parse user_agent_string)
          (fun _ => ret (parse_user_agent_fallback user_agent_string))
    | None => ret (parse_user_agent_fallback user_agent_string)
    end.

(* ================================================================== *)
(** ** [core/utils.py]: [get_location_from_ip] *)
(* ================================================================== *)

(** The dict returned by [get_location_from_ip]. *)
Record location := {
  loc_country : jvalue;
  loc_city : jvalue
}.

Definition local_location : location :=
  {| loc_country := JStr "Local"; loc_city := JStr "Local" |}.

Definition unknown_location : location :=
  {| loc_country := JStr "Unknown"; loc_city := JStr "Unknown" |}.

Fixpoint dict_get (d : list (string * jvalue)) (key : string)
    (default : jvalue) : jvalue :=
  match d with
  | [] => default
  | (k, v) :: rest => if String.eqb k key then v else dict_get rest key default
  end.

(** [data.get(key, default)]: only a dict has the method. *)
Definition py_get (data : jvalue) (key : string) (default : jvalue)
  : outcome jvalue :=
  match data with
  | JObj d => Ret (dict_get d key default)
  | _ => Raise AttributeError
  end.

(** [v == s] for a string literal [s]. *)
Definition py_eq_str (v : jvalue) (s : string) : bool :=
  match v with
  | JStr s' => String.eqb s' s
  | _ => false
  end.

(** [v[:100]]: strings and lists can be sliced; slicing anything else
    raises ([TypeError], or [KeyError] for a dict on recent Pythons, both
    caught alike by [except Exception]). *)
Definition slice100 (v : jvalue) : outcome jvalue :=
  match v with
  | JStr s => Ret (JStr (str_take 100 s))
  | JArr l => Ret (JArr (take 100 l))
  | _ => Raise TypeError
  end.

(** [v[:100] if v else 'Unknown'] *)
Definition slice_or_unknown (v : jvalue) : outcome jvalue :=
  if truthy v then slice100 v else Ret (JStr "Unknown").

Definition http_get (env : Env) (url : string) : M http_response :=
  _ <- log (HttpGet url) ;; lift (requests_get env url).

Definition response_json (response : http_response) : M jvalue :=
  match json response with
  | Some data => ret data
  | None => raise JSONDecodeError
  end.

Definition primary_url (ip_address : string) : string :=
  "https://ipapi.co/" +:+ ip_address +:+ "/json/".

Definition secondary_url (ip_address : string) : string :=
  "http://ip-api.com/json/" +:+ ip_address.

(** The outer [try] body.  [Some loc]: the body executed [return loc];
    [None]: control fell off its end. *)
Definition primary_lookup (env : Env) (ip_address : string)
  : M (option location) :=
  response <- http_get env (primary_url ip_address) ;;
  if (status_code response =? 200)%Z then
    data <- response_json response ;;
    country <- lift (py_get data "country_name" (JStr "Unknown")) ;;
    city <- lift (py_get data "city" (JStr "Unknown")) ;;
    country' <- lift (slice_or_unknown country) ;;
    city' <- lift (slice_or_unknown city) ;;
    ret (Some {| loc_country := country'; loc_city := city' |})
  else ret None.

(** The inner [try] body, inside the [except] clause of the outer one. *)
Definition secondary_lookup (env : Env) (ip_address : string)
  : M (option location) :=
  response <- http_get env (secondary_url ip_address) ;;
  if (status_code response =? 200)%Z then
    data <- response_json response ;;
    status <- lift (py_get data "status" JNull) ;;
    if py_eq_str status "success" then
      country <- lift (py_get data "country" (JStr "Unknown")) ;;
      city <- lift (py_get data "city" (JStr "Unknown")) ;;
      country' <- lift (slice_or_unknown country) ;;
      city' <- lift (slice_or_unknown city) ;;
      ret (Some {| loc_country := country'; loc_city := city' |})
    else ret None
  else ret None.

Definition loopback_names : list string := ["127.0.0.1"; "::1"; "localhost"].

Definition get_location_from_ip (env : Env) (ip_address : option string)
  : M location :=
  match ip_address with
  | None => ret local_location
  | Some ip =>
      if negb (str_truthy ip) || existsb (String.eqb ip) loopback_names
      then ret local_location
      else
        r <- try_except (primary_lookup env ip)
               (fun _ =>
                  try_except (secondary_lookup env ip)
                    (fun _ => ret None)) ;;
        match r with
        | Some loc => ret loc
        | None => ret unknown_location
        end
  end.

(* ================================================================== *)
(** ** [core/models.py]: [ShortenedURL] *)
(* ================================================================== *)

(** Truth value of a Python [int]. *)
Definition nat_truthy (n : nat) : bool := negb (n =? 0)%nat.

Definition is_expired (env : Env) (self : ShortenedURL) : bool :=
  match expires_at self with
  | Some t => (now env >? t)%Z
  | None => false
  end.

(** The third test of [can_be_accessed]:
    [self.max_clicks and self.clicks >= self.max_clicks]. *)
Definition quota_exhausted (self : ShortenedURL) : bool :=
  match max_clicks self with
  | Some m => nat_truthy m && (m <=? clicks self)%nat
  | None => false
  end.

Definition can_be_accessed (env : Env) (self : ShortenedURL) : bool :=
  if negb (is_active self) then false
  else if is_expired env self then false
  else if quota_exhausted self then false
  else true.

Definition has_password (self : ShortenedURL) : bool :=
  str_truthy (password self).

Definition with_password (self : ShortenedURL) (p : string) : ShortenedURL :=
  {| original_url := original_url self; short_code := short_code self;
     title := title self; description := description self;
     clicks := clicks self; is_active := is_active self;
     created_at := created_at self; updated_at := updated_at self;
     expires_at := expires_at self; password := p;
     max_clicks := max_clicks self |}.

Definition with_clicks (self : ShortenedURL) (n : nat) : ShortenedURL :=
  {| original_url := original_url self; short_code := short_code self;
     title := title self; description := description self;
     clicks := n; is_active := is_active self;
     created_at := created_at self; updated_at := updated_at self;
     expires_at := expires_at self; password := password self;
     max_clicks := max_clicks self |}.

Definition with_updated_at (self : ShortenedURL) (t : Z) : ShortenedURL :=
  {| original_url := original_url self; short_code := short_code self;
     title := title self; description := description self;
     clicks := clicks self; is_active := is_active self;
     created_at := created_at self; updated_at := t;
     expires_at := expires_at self; password := password self;
     max_clicks := max_clicks self |}.

(** [set_password]; [salt] is the salt the hasher draws. *)
Definition set_password (env : Env) (salt : string) (self : ShortenedURL)
    (raw_password : string) : ShortenedURL :=
  if str_truthy raw_password
  then with_password self (make_password env salt raw_password)
  else with_password self "".

Definition check_password (env : Env) (self : ShortenedURL)
    (raw_password : string) : bool :=
  if negb (str_truthy (password self)) then true
  else hashers_check_password env raw_password (password self).

(** [Model.save] of a link: the row keyed by the (unique) short code is
    overwritten with every field of the in-memory object, [updated_at]
    being refreshed ([auto_now]). *)
Definition ShortenedURL_save (env : Env) (self : ShortenedURL) : M unit :=
  fun w =>
    (Ret tt,
     {| links := <[short_code self := with_updated_at self (now env)]>
                   (links w);
        click_records := click_records w;
        calls := calls w |}).

(* ================================================================== *)
(** ** [core/models.py]: [Click] *)
(* ================================================================== *)

Definition with_ua_data (self : Click) (d : ua_data) : Click :=
  {| pk := pk self; url := url self; ip_address := ip_address self;
     user_agent := user_agent self; referer := referer self;
     country := country self; city := city self;
     device_type := ua_device_type d; browser := ua_browser d;
     operating_system := ua_operating_system d;
     clicked_at := clicked_at self |}.

Definition with_location (self : Click) (l : location) : Click :=
  {| pk := pk self; url := url self; ip_address := ip_address self;
     user_agent := user_agent self; referer := referer self;
     country := loc_country l; city := loc_city l;
     device_type := device_type self; browser := browser self;
     operating_system := operating_system self;
     clicked_at := clicked_at self |}.

Definition with_raw (self : Click) (ip : option string) (ua : string)
  : Click :=
  {| pk := pk self; url := url self; ip_address := ip;
     user_agent := ua; referer := referer self;
     country := country self; city := city self;
     device_type := device_type self; browser := browser self;
     operating_system := operating_system self;
     clicked_at := clicked_at self |}.

Definition inserted (self : Click) (k : Z) (t : Z) : Click :=
  {| pk := Some k; url := url self; ip_address := ip_address self;
     user_agent := user_agent self; referer := referer self;
     country := country self; city := city self;
     device_type := device_type self; browser := browser self;
     operating_system := operating_system self;
     clicked_at := Some t |}.

(** Truth value of [self.ip_address] and of [self.pk]. *)
Definition opt_str_truthy (s : option string) : bool :=
  match s with
  | Some s => str_truthy s
  | None => false
  end.

Definition pk_truthy (k : option Z) : bool :=
  match k with
  | Some k => negb (k =? 0)%Z
  | None => false
  end.

Definition populate_analytics_data (env : Env) (self : Click) : M Click :=
  self1 <- (if str_truthy (user_agent self)
            then ua_data <- parse_user_agent env (user_agent self) ;;
                 ret (with_ua_data self ua_data)
            else ret self) ;;
  if opt_str_truthy (ip_address self1)
  then location_data <- get_location_from_ip env (ip_address self1) ;;
       ret (with_location self1 location_data)
  else ret self1.

(** The five derived fields of a click. *)
Definition derived (self : Click)
  : string * string * string * jvalue * jvalue :=
  (device_type self, browser self, operating_system self,
   country self, city self).

Definition has_pk (k : Z) (row : Click) : bool :=
  match pk row with
  | Some k' => (k' =? k)%Z
  | None => false
  end.

(** The key the storage layer gives to a new row: one more than the
    largest key in the table, hence at least 1. *)
Definition fresh_pk (rows : list Click) : Z :=
  1 + fold_right (fun row acc =>
                    match pk row with
                    | Some k => Z.max k acc
                    | None => acc
                    end) 0%Z rows.

(** [super().save()] of a click.  The address column is NOT NULL and a
    blank address is stored as NULL, so a click without an address is
    refused by the storage layer with [IntegrityError] and nothing is
    written.  Otherwise: without a key the row is inserted under a fresh
    key and stamped ([auto_now_add]); with a key the row of that key is
    overwritten, or inserted when there is none. *)
Definition Model_save (env : Env) (self : Click) : M Click :=
  fun w =>
    if negb (opt_str_truthy (ip_address self)) then (Raise IntegrityError, w)
    else
    let rows := click_records w in
    let '(self', rows') :=
      match pk self with
      | None =>
          let self' := inserted self (fresh_pk rows) (now env) in
          (self', (rows ++ [self'])%list)
      | Some k =>
          if existsb (has_pk k) rows
          then (self, map (fun row => if has_pk k row then self else row) rows)
          else let self' := inserted self k (now env) in
               (self', (rows ++ [self'])%list)
      end in
    (Ret self',
     {| links := links w; click_records := rows'; calls := calls w |}).

Definition Click_save (env : Env) (self : Click) : M Click :=
  self' <- (if negb (pk_truthy (pk self))
            then populate_analytics_data env self
            else ret self) ;;
  Model_save env self'.

(** [Click(url=..., ip_address=..., user_agent=..., referer=...)]: the
    fields that are not given take their defaults. *)
Definition new_click (url : string) (ip_address : option string)
    (user_agent referer : string) : Click :=
  {| pk := None; url := url; ip_address := ip_address;
     user_agent := user_agent; referer := referer;
     country := JStr ""; city := JStr "";
     device_type := ""; browser := ""; operating_system := "";
     clicked_at := None |}.

(** [Click.objects.create(...)] *)
Definition Click_objects_create (env : Env) (url : string)
    (ip_address : option string) (user_agent referer : string) : M Click :=
  Click_save env (new_click url ip_address user_agent referer).

(* ================================================================== *)
(** ** [core/views.py]: [RedirectView] *)
(* ================================================================== *)

(** The parts of [request] the view reads. *)
Record Request := {
  HTTP_X_FORWARDED_FOR : option string;
  REMOTE_ADDR : option string;
  HTTP_USER_AGENT : option string;
  HTTP_REFERER : option string;
  session : gmap string bool
}.

Inductive response :=
| Render (template : string) (status : Z)
| HttpResponseRedirect (redirect_to : string).

(** [s.split(',')[0]] *)
Fixpoint before_comma (s : string) : string :=
  match s with
  | EmptyString => EmptyString
  | String c s' =>
      if Ascii.eqb c "," then EmptyString else String c (before_comma s')
  end.

Definition get_client_ip (request : Request) : option string :=
  match HTTP_X_FORWARDED_FOR request with
  | Some x_forwarded_for =>
      if str_truthy x_forwarded_for
      then Some (before_comma x_forwarded_for)
      else REMOTE_ADDR request
  | None => REMOTE_ADDR request
  end.

Definition get_object_or_404 (short_code : string) : M ShortenedURL :=
  fun w =>
    match links w !! short_code with
    | Some url => (Ret url, w)
    | None => (Raise Http404, w)
    end.

(** [reverse('core:password_prompt', kwargs={'short_code': short_code})].
    The result is a path of the site itself; it has no scheme, so the
    redirect response to it is always built. *)
Definition reverse_password_prompt (short_code : string) : string :=
  "/password/" +:+ short_code +:+ "/".

Definition session_verified (request : Request) (short_code : string)
  : bool :=
  default false (session request !! ("password_verified_" +:+ short_code)).

Definition unavailable_page : response :=
  Render "core/link_not_available.html" 200.

(** Lines 829-842: load the link and apply the access policy.
    [inl r]: the view returns [r]; [inr url]: the request is allowed and
    carries on with the loaded object. *)
Definition load_and_check (env : Env) (request : Request)
    (short_code : string) : M (response + ShortenedURL) :=
  url <- get_object_or_404 short_code ;;
  if negb (can_be_accessed env url) then ret (inl unavailable_page)
  else if has_password url && negb (session_verified request short_code)
  then ret (inl (HttpResponseRedirect (reverse_password_prompt short_code)))
  else ret (inr url).

(** Lines 845-850: track the click. *)
Definition track_click (env : Env) (request : Request) (url : ShortenedURL)
  : M Click :=
  Click_objects_create env (short_code url)
    (get_client_ip request)
    (default "" (HTTP_USER_AGENT request))
    (default "" (HTTP_REFERER request)).

(** [HttpResponseRedirect(url)] for a stored target: built, or refused
    with [DisallowedRedirect]. *)
Definition redirect_response (env : Env) (url : string) : M response :=
  if redirect_accepted env url then ret (HttpResponseRedirect url)
  else raise DisallowedRedirect.

(** Lines 853-856: [url.clicks += 1; url.save()] and the redirect, which
    is built after the link has been saved. *)
Definition update_click_count (env : Env) (url : ShortenedURL)
  : M response :=
  let url := with_clicks url (clicks url + 1) in
  _ <- ShortenedURL_save env url ;;
  redirect_response env (original_url url).

(** [except ShortenedURL.DoesNotExist] *)
Definition on_exception (e : exn) : M response :=
  match e with
  | DoesNotExist => ret (Render "core/404.html" 404)
  | _ => raise e
  end.

Definition RedirectView_get (env : Env) (request : Request)
    (short_code : string) : M response :=
  try_except
    (r <- load_and_check env request short_code ;;
     match r with
     | inl resp => ret resp
     | inr url =>
         _ <- track_click env request url ;;
         update_click_count env url
     end)
    on_exception.

(** Requests served one after another. *)
Fixpoint serve_all (requests : list (Env * Request)) (short_code : string)
    (w : World) : list (outcome response) * World :=
  match requests with
  | [] => ([], w)
  | (env, request) :: rest =>
      let '(o, w1) := RedirectView_get env request short_code w in
      let '(os, w2) := serve_all rest short_code w1 in
      (o :: os, w2)
  end.

(* ================================================================== *)
(** ** Overlapping requests *)
(* ================================================================== *)

(** A request in flight.  The view talks to the storage layer three
    times: it loads the link, inserts the click, and saves the link.  Each
    of these is one step; between two steps of one request any number of
    steps of other requests may happen.  The loaded link is an object in
    the memory of the request that loaded it. *)
Inductive pc :=
| AtLoad
| AtTrack (url : ShortenedURL)
| AtUpdate (url : ShortenedURL)
| Finished (r : outcome response).

Record thread := {
  t_env : Env;
  t_request : Request;
  t_code : string;
  t_pc : pc
}.

Definition at_pc (t : thread) (p : pc) : thread :=
  {| t_env := t_env t; t_request := t_request t; t_code := t_code t;
     t_pc := p |}.

Definition start (env : Env) (request : Request) (short_code : string)
  : thread :=
  {| t_env := env; t_request := request; t_code := short_code;
     t_pc := AtLoad |}.

Definition finish_with (t : thread) (e : exn) (w : World) : thread * World :=
  let '(o, w') := on_exception e w in (at_pc t (Finished o), w').

Definition thread_step (t : thread) (w : World) : thread * World :=
  match t_pc t with
  | AtLoad =>
      match load_and_check (t_env t) (t_request t) (t_code t) w with
      | (Ret (inl resp), w') => (at_pc t (Finished (Ret resp)), w')
      | (Ret (inr url), w') => (at_pc t (AtTrack url), w')
      | (Raise e, w') => finish_with t e w'
      end
  | AtTrack url =>
      match track_click (t_env t) (t_request t) url w with
      | (Ret _, w') => (at_pc t (AtUpdate url), w')
      | (Raise e, w') => finish_with t e w'
      end
  | AtUpdate url =>
      match update_click_count (t_env t) url w with
      | (Ret resp, w') => (at_pc t (Finished (Ret resp)), w')
      | (Raise e, w') => finish_with t e w'
      end
  | Finished _ => (t, w)
  end.

(** The scheduler picks the request that takes the next step. *)
Definition sched_step (cfg : list thread * World) (i : nat)
  : list thread * World :=
  match cfg.1 !! i with
  | Some t =>
      let '(t', w') := thread_step t cfg.2 in (<[i := t']> cfg.1, w')
  | None => cfg
  end.

Definition run_schedule (schedule : list nat) (cfg : list thread * World)
  : list thread * World :=
  fold_left sched_step schedule cfg.

Definition is_finished (t : thread) : bool :=
  match t_pc t with
  | Finished _ => true
  | _ => false
  end.

(** The request has inserted its click row. *)
Definition is_tracked (t : thread) : bool :=
  match t_pc t with
  | AtUpdate _ | Finished _ => true
  | _ => false
  end.

Definition count_threads (f : thread -> bool) (ts : list thread) : nat :=
  length (List.filter f ts).

(** Three steps in a row of one request. *)
Definition run_alone (t : thread) (w : World) : thread * World :=
  let '(t1, w1) := thread_step t w in
  let '(t2, w2) := thread_step t1 w1 in
  thread_step t2 w2.

(** The value of the counter of a link in storage. *)
Definition stored_clicks (w : World) (short_code : string) : option nat :=
  clicks <$> (links w !! short_code).

(* ================================================================== *)
(** ** The contract of the password hasher *)
(* ================================================================== *)

(** What the view relies on from [django.contrib.auth.hashers]: an
    encoded password is never the empty string, it verifies the password
    it was made from, and it verifies no other. *)
Definition hasher_sound (env : Env) : Prop :=
  (forall salt raw, make_password env salt raw <> "") /\
  (forall salt raw,
      hashers_check_password env raw (make_password env salt raw) = true) /\
  (forall salt raw x,
      x <> raw ->
      hashers_check_password env x (make_password env salt raw) = false).

(* ================================================================== *)
(** ** Sample data *)
(* ================================================================== *)

Definition sample_link : ShortenedURL :=
  {| original_url := "https://example.com/landing";
     short_code := "abc123";
     title := ""; description := "";
     clicks := 0; is_active := true;
     created_at := 1000; updated_at := 1000;
     expires_at := None; password := ""; max_clicks := None |}.

(** A quota of zero clicks. *)
Definition zero_quota_link : ShortenedURL :=
  {| original_url := "https://example.com/landing";
     short_code := "abc123";
     title := ""; description := "";
     clicks := 0; is_active := true;
     created_at := 1000; updated_at := 1000;
     expires_at := None; password := ""; max_clicks := Some 0 |}.

(** A quota of two clicks, both used. *)
Definition spent_link : ShortenedURL :=
  {| original_url := "https://example.com/landing";
     short_code := "abc123";
     title := ""; description := "";
     clicks := 2; is_active := true;
     created_at := 1000; updated_at := 1000;
     expires_at := None; password := ""; max_clicks := Some 2 |}.

Definition sample_request : Request :=
  {| HTTP_X_FORWARDED_FOR := None;
     REMOTE_ADDR := Some "8.8.8.8";
     HTTP_USER_AGENT := Some "Mozilla/5.0 (X11; Linux x86_64) Firefox/120.0";
     HTTP_REFERER := None;
     session := ∅ |}.

Definition rate_limited : http_response :=
  {| status_code := 429;
     json := Some (JObj [("error", JBool true);
                         ("reason", JStr "RateLimited")]) |}.

Definition mountain_view : http_response :=
  {| status_code := 200;
     json := Some (JObj [("status", JStr "success");
                         ("country", JStr "United States");
                         ("city", JStr "Mountain View")]) |}.

(** The scheme check on the sample targets: a target without a colon has
    no scheme and is accepted; any other must begin with one of the three
    allowed schemes. *)
Definition sample_scheme_check (url : string) : bool :=
  let url := lower url in
  negb (contains ":" url) ||
  String.prefix "http:" url || String.prefix "https:" url ||
  String.prefix "ftp:" url.

(** A world in which the primary provider answers 429 and the secondary
    one is up; the password hasher is a toy one that marks the password
    instead of hashing it. *)
Definition sample_env : Env :=
  {| now := 2000;
     requests_get := fun url =>
       if String.eqb url (primary_url "8.8.8.8") then Ret rate_limited
       else if String.eqb url (secondary_url "8.8.8.8") then Ret mountain_view
       else Raise RequestException;
     ua_parse := None;
     make_password := fun salt raw => "!" +:+ raw;
     hashers_check_password := fun raw encoded =>
       String.eqb ("!" +:+ raw) encoded;
     redirect_accepted := sample_scheme_check |}.

Definition empty_world : World :=
  {| links := ∅; click_records := []; calls := [] |}.

Definition sample_world : World :=
  {| links := {[ "abc123" := sample_link ]};
     click_records := [];
     calls := [] |}.

Definition spent_world : World :=
  {| links := {[ "abc123" := spent_link ]};
     click_records := [];
     calls := [] |}.

(* ================================================================== *)
(** ** Vocabulary for the statements *)
(* ================================================================== *)

(** The world after the calls [extra] have been logged. *)
Definition add_calls (w : World) (extra : list event) : World :=
  {| links := links w;
     click_records := click_records w;
     calls := calls w ++ extra |}.

Definition is_http_get (e : event) : bool :=
  match e with
  | HttpGet _ => true
  | UaParse _ => false
  end.

Definition is_ua_parse (e : event) : bool :=
  match e with
  | HttpGet _ => false
  | UaParse _ => true
  end.

(** A computation that neither touches storage nor calls out. *)
Definition silent {A} (m : M A) : Prop :=
  forall w, exists o, m w = (o, w).

(** The policy fields of a link: everything the view looks at apart from
    the counter. *)
Definition same_policy (a b : ShortenedURL) : Prop :=
  original_url a = original_url b /\
  short_code a = short_code b /\
  is_active a = is_active b /\
  expires_at a = expires_at b /\
  password a = password b /\
  max_clicks a = max_clicks b.

(** A link that is active, never expires and has no password. *)
Definition open_link (self : ShortenedURL) : Prop :=
  is_active self = true /\ expires_at self = None /\ password self = "".

(** The quota of the link, if it has one, is at least [limit]. *)
Definition quota_at_least (self : ShortenedURL) (limit : nat) : Prop :=
  forall m, max_clicks self = Some m -> m <> 0 -> limit <= m.

Definition redirect_to_target (self : ShortenedURL) : outcome response :=
  Ret (HttpResponseRedirect (original_url self)).

(** A request that can be served to the end for a link: it carries a
    client address, so that its click can be stored, and the target of
    the link is one the redirect response accepts. *)
Definition servable (link : ShortenedURL) (er : Env * Request) : Prop :=
  opt_str_truthy (get_client_ip er.2) = true /\
  redirect_accepted er.1 (original_url link) = true.

(** *** The invariant of overlapping requests for one open link

    [link0] is the link as stored before the first request, [r0] the
    number of click rows then.  With [d] requests finished so far:
    the stored link and every link object held by a request differ from
    [link0] in the counter only, which lies between that of [link0] and
    [d] more; the stored counter has moved once a request has finished;
    there is one new row per request that has passed the insertion;
    every request can be served to the end; and every finished request
    was redirected. *)
Definition snapshot_ok (link0 : ShortenedURL) (d : nat) (u : ShortenedURL)
  : Prop :=
  same_policy u link0 /\
  clicks link0 <= clicks u /\ clicks u <= clicks link0 + d.

Definition thread_ok (link0 : ShortenedURL) (d : nat) (t : thread) : Prop :=
  t_code t = short_code link0 /\
  servable link0 (t_env t, t_request t) /\
  match t_pc t with
  | AtLoad => True
  | AtTrack u | AtUpdate u => snapshot_ok link0 d u
  | Finished r => r = redirect_to_target link0
  end.

Definition race_invariant (link0 : ShortenedURL) (r0 : nat)
    (cfg : list thread * World) : Prop :=
  let d := count_threads is_finished cfg.1 in
  (exists cur,
      links cfg.2 !! short_code link0 = Some cur /\
      snapshot_ok link0 d cur /\
      (0 < d -> clicks link0 < clicks cur)) /\
  length (click_records cfg.2) = r0 + count_threads is_tracked cfg.1 /\
  Forall (thread_ok link0 d) cfg.1.

(** The requests of a list, all for one short code, none started yet. *)
Definition start_all (requests : list (Env * Request)) (code : string)
  : list thread :=
  map (fun er => start er.1 er.2 code) requests.

(* ================================================================== *)
(** ** [core/utils.py]: the icon helpers *)
(* ================================================================== *)

Definition get_browser_icon (browser_name : string) : string :=
  let browser_name := lower browser_name in
  if contains "chrome" browser_name then "fab fa-chrome"
  else if contains "firefox" browser_name then "fab fa-firefox-browser"
  else if contains "safari" browser_name then "fab fa-safari"
  else if contains "edge" browser_name then "fab fa-edge"
  else if contains "opera" browser_name then "fab fa-opera"
  else if contains "internet explorer" browser_name ||
          contains "ie" browser_name
       then "fab fa-internet-explorer"
  else "fas fa-globe".

Definition get_device_icon (device_type : string) : string :=
  let device_type := lower device_type in
  if contains "mobile" device_type then "fas fa-mobile-alt"
  else if contains "tablet" device_type then "fas fa-tablet-alt"
  else if contains "desktop" device_type then "fas fa-desktop"
  else "fas fa-question-circle".

Definition get_os_icon (os_name : string) : string :=
  let os_name := lower os_name in
  if contains "windows" os_name then "fab fa-windows"
  else if contains "mac" os_name || contains "ios" os_name
       then "fab fa-apple"
  else if contains "linux" os_name then "fab fa-linux"
  else if contains "android" os_name then "fab fa-android"
  else "fas fa-desktop".

(* ================================================================== *)
(** ** [core/models.py]: short codes and short URLs *)
(* ================================================================== *)

(** [string.ascii_letters + string.digits] *)
Definition characters : string :=
  "abcdefghijklmnopqrstuvwxyzABCDEFGHIJKLMNOPQRSTUVWXYZ0123456789".

(** [seq[i]] for an index inside the string; the blank stands for the
    [IndexError] that [random.choice] never provokes. *)
Fixpoint char_at (s : string) (i : nat) : ascii :=
  match s, i with
  | EmptyString, _ => " "%char
  | String c _, O => c
  | String _ s', S i' => char_at s' i'
  end.

(** [generate_short_code]: six draws of [random.choice(characters)].
    [randbelow k n] is the index the generator picks at its [k]-th draw
    from a sequence of length [n]. *)
Definition generate_short_code (randbelow : nat -> nat -> nat) : string :=
  string_of_list_ascii
    (map (fun k => char_at characters (randbelow k (String.length characters)))
         (seq 0 6)).

(** [get_short_url].  [domain] is the name of [self.domain] when the link
    has one, [host] is [request.get_host()] when a request is given. *)
Definition get_short_url (self : ShortenedURL) (domain host : option string)
  : string :=
  let domain :=
    match domain with
    | Some name => name
    | None =>
        match host with
        | Some h => h
        | None => "localhost:8001"
        end
    end in
  "https://" +:+ domain +:+ "/" +:+ short_code self.

(* ================================================================== *)
(** ** [core/views.py]: [PasswordPromptView] and [ToggleLinkView] *)
(* ================================================================== *)

(** What [PasswordPromptView.post] answers: one of the responses of the
    redirect view, or the prompt template with or without an error
    message. *)
Inductive prompt_response :=
| Plain (r : response)
| Prompt (error_message : option string).

(** The session after the request: its entries and, when the view has
    called [set_expiry], the number of seconds it asked for. *)
Record session_state := {
  entries : gmap string bool;
  expiry : option Z
}.

(** [reverse('core:redirect', kwargs={'short_code': short_code})] *)
Definition reverse_redirect (short_code : string) : string :=
  "/" +:+ short_code +:+ "/".

(** [PasswordPromptView.post].  [form] is what [PasswordPromptForm] makes
    of the posted data: [Some password] when the form is valid, [None]
    when it is not. *)
Definition PasswordPromptView_post (env : Env) (request : Request)
    (short_code : string) (form : option string)
  : M (prompt_response * session_state) :=
  let unchanged := {| entries := session request; expiry := None |} in
  try_except
    (url <- get_object_or_404 short_code ;;
     if negb (can_be_accessed env url)
     then ret (Plain unavailable_page, unchanged)
     else
       match form with
       | Some password =>
           if check_password env url password
           then ret (Plain (HttpResponseRedirect
                              (reverse_redirect short_code)),
                     {| entries :=
                          <["password_verified_" +:+ short_code := true]>
                            (session request);
                        expiry := Some 3600%Z |})
           else ret (Prompt (Some "Incorrect password. Please try again."),
                     unchanged)
       | None => ret (Prompt None, unchanged)
       end)
    (fun e =>
       match e with
       | DoesNotExist => ret (Plain (Render "core/404.html" 404), unchanged)
       | _ => raise e
       end).

(** The request as the browser sends it next, with the session the
    previous answer left. *)
Definition with_session (request : Request) (s : gmap string bool)
  : Request :=
  {| HTTP_X_FORWARDED_FOR := HTTP_X_FORWARDED_FOR request;
     REMOTE_ADDR := REMOTE_ADDR request;
     HTTP_USER_AGENT := HTTP_USER_AGENT request;
     HTTP_REFERER := HTTP_REFERER request;
     session := s |}.

Definition with_is_active (self : ShortenedURL) (b : bool) : ShortenedURL :=
  {| original_url := original_url self; short_code := short_code self;
     title := title self; description := description self;
     clicks := clicks self; is_active := b;
     created_at := created_at self; updated_at := updated_at self;
     expires_at := expires_at self; password := password self;
     max_clicks := max_clicks self |}.

(** [ToggleLinkView.post] from the point where the link of the owner has
    been loaded: [link.is_active = not link.is_active; link.save()]; the
    value is the [is_active] of the JSON answer. *)
Definition toggle_link (env : Env) (link : ShortenedURL) : M bool :=
  let link := with_is_active link (negb (is_active link)) in
  _ <- ShortenedURL_save env link ;;
  ret (is_active link).

(* ================================================================== *)
(** ** [core/management/commands/populate_analytics.py] *)
(* ================================================================== *)

(** The enrichment the command applies to one click (lines 64-80 of the
    loop body), before it compares and stores the result. *)
Definition backfill_fields (env : Env) (force : bool) (click : Click)
  : M Click :=
  click1 <- (if str_truthy (user_agent click) &&
                (force || negb (str_truthy (device_type click)))
             then ua_data <- parse_user_agent env (user_agent click) ;;
                  ret (with_ua_data click ua_data)
             else ret click) ;;
  if opt_str_truthy (ip_address click1) &&
     (force || negb (truthy (country click1)))
  then
    if negb (existsb (fun s => bool_decide (ip_address click1 = Some s))
                     ["127.0.0.1"; "::1"])
    then location_data <- get_location_from_ip env (ip_address click1) ;;
         ret (with_location click1 location_data)
    else ret (with_location click1 local_location)
  else ret click1.

(* ================================================================== *)
(** ** More vocabulary for the statements *)
(* ================================================================== *)

(** A value the geolocator can return for a field: a non-empty string or
    list of at most 100 items. *)
Definition field_ok (v : jvalue) : Prop :=
  truthy v = true /\
  match v with
  | JStr s => String.length s <= 100
  | JArr l => length l <= 100
  | _ => False
  end.

Definition location_ok (loc : location) : Prop :=
  field_ok (loc_country loc) /\ field_ok (loc_city loc).

(** What a lookup hands back when it returns a location. *)
Definition lookup_ok (r : option location) : Prop :=
  match r with
  | Some loc => location_ok loc
  | None => True
  end.

(** A silent computation whose value, when it returns, satisfies [P]. *)
Definition silent_with {A} (P : A -> Prop) (m : M A) : Prop :=
  forall w, exists o, m w = (o, w) /\ forall a, o = Ret a -> P a.

Definition is_alnum (c : ascii) : bool :=
  let n := N_of_ascii c in
  ((48 <=? n) && (n <=? 57) || (65 <=? n) && (n <=? 90) ||
   (97 <=? n) && (n <=? 122))%N.

(** The click rows of one link. *)
Definition rows_for (code : string) (w : World) : nat :=
  length (List.filter (fun c => String.eqb (url c) code) (click_records w)).

(** A world in which the primary provider answers for 8.8.8.8 with a
    country and a blank city. *)
Definition primary_up_env : Env :=
  {| now := 2000;
     requests_get := fun url =>
       if String.eqb url (primary_url "8.8.8.8")
       then Ret {| status_code := 200;
                   json := Some (JObj [("country_name", JStr "United States");
                                       ("city", JStr "")]) |}
       else Raise RequestException;
     ua_parse := None;
     make_password := fun salt raw => "!" +:+ raw;
     hashers_check_password := fun raw encoded =>
       String.eqb ("!" +:+ raw) encoded;
     redirect_accepted := sample_scheme_check |}.

(** A world in which the primary provider is down and the secondary one
    answers for 8.8.8.8. *)
Definition primary_down_env : Env :=
  {| now := 2000;
     requests_get := fun url =>
       if String.eqb url (secondary_url "8.8.8.8") then Ret mountain_view
       else Raise RequestException;
     ua_parse := None;
     make_password := fun salt raw => "!" +:+ raw;
     hashers_check_password := fun raw encoded =>
       String.eqb ("!" +:+ raw) encoded;
     redirect_accepted := sample_scheme_check |}.

(** [s[:100] if s else 'Unknown'] for a string. *)
Definition clip (s : string) : jvalue :=
  JStr (if str_truthy s then str_take 100 s else "Unknown").

(** The fields of a click that come from the request. *)
Definition raw_fields (self : Click)
  : string * option string * string * string * option Z :=
  (url self, ip_address self, user_agent self, referer self,
   clicked_at self).

(** The quota test in the words of the specification: [max_clicks] is
    set and [clicks >= max_clicks]. *)
Definition quota_reached (self : ShortenedURL) : bool :=
  match max_clicks self with
  | Some m => (m <=? clicks self)%nat
  | None => false
  end.

(** The same world with the link of a zero quota stored. *)
Definition zero_quota_world : World :=
  {| links := {[ "abc123" := zero_quota_link ]};
     click_records := [];
     calls := [] |}.

(** A quota of one click, none used, and the world that stores it. *)
Definition quota_one_link : ShortenedURL :=
  {| original_url := "https://example.com/landing";
     short_code := "abc123";
     title := ""; description := "";
     clicks := 0; is_active := true;
     created_at := 1000; updated_at := 1000;
     expires_at := None; password := ""; max_clicks := Some 1 |}.

Definition quota_one_world : World :=
  {| links := {[ "abc123" := quota_one_link ]};
     click_records := [];
     calls := [] |}.

(** The device fields a click has before enrichment, as a classifier
    result. *)
Definition device_fields (self : Click) : ua_data :=
  {| ua_device_type := device_type self;
     ua_browser := browser self;
     ua_operating_system := operating_system self |}.

(* ================================================================== *)
(** * Properties *)
(* ================================================================== *)

(** ** Strings *)

Lemma prefix_iff_append (sub s : string) :
  String.prefix sub s = true <-> exists post, s = sub +:+ post.
Proof.
  revert s; induction sub as [|c sub IH]; intros s.
  - split; [intros _; now exists s | now destruct s].
  - destruct s as [|d s]; simpl.
    + split; [discriminate | intros [post H]; discriminate].
    + destruct (Ascii.ascii_dec c d) as [->|Hne].
      * rewrite IH. split; intros [post H]; exists post.
        -- now rewrite H.
        -- now injection H.
      * split; [discriminate|].
        intros [post H]. injection H as Hd _. congruence.
Qed.

(** [contains] is the substring test: [sub] occurs in [s] exactly when
    [s] splits as [pre ++ sub ++ post]. *)
Lemma contains_iff_infix (sub s : string) :
  contains sub s = true <-> exists pre post, s = pre +:+ sub +:+ post.
Proof.
  induction s as [|c s IH]; cbn [contains].
  - rewrite orb_false_r, prefix_iff_append. split.
    + intros [post H]. now exists "", post.
    + intros [pre [post H]]. destruct pre; simpl in H; [now exists post|].
      discriminate.
  - rewrite orb_true_iff, prefix_iff_append, IH. split.
    + intros [[post H] | [pre [post H]]].
      * now exists "", post.
      * exists (String c pre), post. simpl. now rewrite H.
    + intros [pre [post H]]. destruct pre as [|d pre]; simpl in H.
      * left. now exists post.
      * right. injection H as _ H. now exists pre, post.
Qed.

Lemma lower_char_idempotent (c : ascii) :
  lower_char (lower_char c) = lower_char c.
Proof.
  destruct c as [[] [] [] [] [] [] [] []]; reflexivity.
Qed.

Lemma lower_idempotent (s : string) : lower (lower s) = lower s.
Proof.
  induction s as [|c s IH]; simpl; [reflexivity|].
  now rewrite lower_char_idempotent, IH.
Qed.

Lemma str_truthy_true (s : string) : str_truthy s = true <-> s <> "".
Proof. destruct s; simpl; split; congruence. Qed.

Lemma str_truthy_false (s : string) : str_truthy s = false <-> s = "".
Proof. destruct s; simpl; split; congruence. Qed.

(** ** The fallback classifier *)

Lemma existsb_contains_iff (keys : list string) (ua : string) :
  existsb (fun k => contains k ua) keys = true <->
  exists k pre post, In k keys /\ ua = pre +:+ k +:+ post.
Proof.
  rewrite existsb_exists. split.
  - intros (k & Hin & Hk). apply contains_iff_infix in Hk as (pre & post & H).
    now exists k, pre, post.
  - intros (k & pre & post & Hin & H). exists k. split; [exact Hin|].
    apply contains_iff_infix. now exists pre, post.
Qed.

(** A rule of the table fires on [ua] exactly when one of its keywords
    occurs in [ua] and none of its blocking keywords does. *)
Lemma rule_fires_iff (ua : string) (r : keyword_rule) :
  rule_fires ua r = true <->
  (exists k pre post, In k (any_of r) /\ ua = pre +:+ k +:+ post) /\
  ~ (exists k pre post, In k (unless r) /\ ua = pre +:+ k +:+ post).
Proof.
  unfold rule_fires.
  rewrite andb_true_iff, negb_true_iff, <- not_true_iff_false.
  now rewrite !existsb_contains_iff.
Qed.

(** C9.  For every user-agent string (the non-empty ones in particular)
    the fallback classifier gives what a first-match lookup of the
    lower-cased string in the fixed keyword tables gives: device Mobile
    for mobile/android/iphone/ipod, else Tablet for ipad/tablet, else
    Desktop; browser Chrome (unless edge occurs), else Firefox, else
    Safari (unless chrome occurs), else Edge, else Opera for opera/opr,
    else Internet Explorer for msie/trident, else Unknown; operating
    system Windows, else macOS for macintosh/mac os, else Linux, else
    Android, else iOS for ios/iphone/ipad, else Unknown. *)
Theorem parse_user_agent_fallback_table (user_agent_string : string) :
  parse_user_agent_fallback user_agent_string =
  classify_by_table user_agent_string.
Proof.
  unfold parse_user_agent_fallback, classify_by_table.
  generalize (lower user_agent_string); intros ua.
  cbn [first_match device_table browser_table os_table].
  unfold rule_fires; cbn [any_of unless label existsb negb].
  rewrite !orb_false_r, !andb_true_r.
  now rewrite (orb_assoc (contains "ios" ua)).
Qed.

Example ipad_safari_is_mobile :
  parse_user_agent_fallback
    "Mozilla/5.0 (iPad; CPU OS 13_2 like Mac OS X) Version/13.0 Mobile/15E148 Safari/604.1"
  = {| ua_device_type := "Mobile"; ua_browser := "Safari";
       ua_operating_system := "macOS" |}.
Proof. reflexivity. Qed.

Example android_chrome_is_linux :
  parse_user_agent_fallback
    "Mozilla/5.0 (Linux; Android 13; Pixel 7) Chrome/120.0 Mobile Safari/537.36"
  = {| ua_device_type := "Mobile"; ua_browser := "Chrome";
       ua_operating_system := "Linux" |}.
Proof. reflexivity. Qed.

(** ** Access policy of a link *)

Lemma nat_truthy_true (n : nat) : nat_truthy n = true <-> n <> 0.
Proof.
  unfold nat_truthy. rewrite negb_true_iff, Nat.eqb_neq. reflexivity.
Qed.

Lemma is_expired_true (env : Env) (self : ShortenedURL) :
  is_expired env self = true <->
  exists t, expires_at self = Some t /\ (t < now env)%Z.
Proof.
  unfold is_expired. destruct (expires_at self) as [t|].
  - rewrite Z.gtb_ltb, Z.ltb_lt. split.
    + intros H. now exists t.
    + intros [t' [[= <-] H]]. exact H.
  - split; [discriminate | intros [t [[=] _]]].
Qed.

Lemma is_expired_false (env : Env) (self : ShortenedURL) :
  is_expired env self = false <->
  expires_at self = None \/
  exists t, expires_at self = Some t /\ (now env <= t)%Z.
Proof.
  unfold is_expired. destruct (expires_at self) as [t|].
  - rewrite Z.gtb_ltb, Z.ltb_ge. split.
    + intros H. right. now exists t.
    + intros [[=] | [t' [[= <-] H]]]. exact H.
  - split; [now left | reflexivity].
Qed.

Lemma quota_exhausted_true (self : ShortenedURL) :
  quota_exhausted self = true <->
  exists m, max_clicks self = Some m /\ m <> 0 /\ m <= clicks self.
Proof.
  unfold quota_exhausted. destruct (max_clicks self) as [m|].
  - rewrite andb_true_iff, nat_truthy_true, Nat.leb_le. split.
    + intros [H1 H2]. now exists m.
    + intros [m' [[= <-] H]]. exact H.
  - split; [discriminate | intros [m [[=] _]]].
Qed.

(** C1, as the code has it.  For a link whose [max_clicks] is unset or
    not zero, [can_be_accessed()] is true exactly when the link is active,
    is not expired ([expires_at] unset, or [now <= expires_at]) and its
    quota is not reached ([max_clicks] set and [clicks >= max_clicks]).
    For every link, an inactive one is never accessible, whatever its
    other fields, and one whose [expires_at] lies in the past is never
    accessible either. *)
Theorem can_be_accessed_iff (env : Env) (self : ShortenedURL) :
  (max_clicks self <> Some 0 ->
   (can_be_accessed env self = true <->
      is_active self = true /\
      (expires_at self = None \/
       exists t, expires_at self = Some t /\ (now env <= t)%Z) /\
      quota_reached self = false)) /\
  (is_active self = false -> can_be_accessed env self = false) /\
  (forall t, expires_at self = Some t -> (t < now env)%Z ->
             can_be_accessed env self = false).
Proof.
  split; [|split].
  - intros Hzero.
    assert (Hq : quota_exhausted self = quota_reached self).
    { unfold quota_exhausted, quota_reached.
      destruct (max_clicks self) as [[|m]|]; [contradiction| |];
        reflexivity. }
    rewrite <- is_expired_false, <- Hq. unfold can_be_accessed.
    destruct (is_active self), (is_expired env self),
      (quota_exhausted self); simpl; intuition congruence.
  - intros H. unfold can_be_accessed. now rewrite H.
  - intros t Ht Hlt. unfold can_be_accessed.
    assert (He : is_expired env self = true)
      by (apply is_expired_true; now exists t).
    rewrite He. now destruct (is_active self).
Qed.

Lemma can_be_accessed_iff_witness :
  can_be_accessed sample_env (with_clicks sample_link 7) = true.
Proof.
  apply (proj1 (can_be_accessed_iff sample_env (with_clicks sample_link 7))).
  - discriminate.
  - split; [reflexivity | split; [left; reflexivity | reflexivity]].
Defined.

(** The claim of C1 fails for a quota of zero: the link below is active
    and not expired, its quota is reached ([max_clicks = 0] and
    [clicks = 0 >= max_clicks]), and it can be accessed. *)
Lemma quota_reached_yet_accessible :
  ~ (forall (env : Env) (self : ShortenedURL),
        can_be_accessed env self = true <->
        is_active self = true /\
        (expires_at self = None \/
         exists t, expires_at self = Some t /\ (now env <= t)%Z) /\
        quota_reached self = false).
Proof.
  intros H.
  destruct (proj1 (H sample_env zero_quota_link) eq_refl) as (_ & _ & Hq).
  discriminate Hq.
Qed.

(** Away from zero the guard is the comparison of the specification. *)
Lemma nonzero_quota_denies (env : Env) (self : ShortenedURL) (m : nat) :
  max_clicks self = Some m -> m <> 0 -> m <= clicks self ->
  can_be_accessed env self = false.
Proof.
  intros Hm Hm0 Hle. unfold can_be_accessed.
  assert (Hq : quota_exhausted self = true)
    by (apply quota_exhausted_true; now exists m).
  rewrite Hq. now destruct (is_active self), (is_expired env self).
Qed.

(** C2, at the inputs where it fails.  The first link has
    [max_clicks = 0], so its quota is set and [clicks = 0 >= max_clicks];
    yet it can be accessed, whatever its counter, and the view serves it:
    the request is redirected to the target and the stored counter
    becomes 1.  The second link has a quota of one click: two requests
    that both load it before either writes it back are both redirected
    and both recorded, so the click after the one that reaches the limit
    is not denied. *)
Theorem quota_guard_is_bypassed :
  max_clicks zero_quota_link = Some 0 /\
  clicks zero_quota_link = 0 /\
  (forall n, can_be_accessed sample_env (with_clicks zero_quota_link n)
             = true) /\
  (RedirectView_get sample_env sample_request "abc123" zero_quota_world).1 =
    Ret (HttpResponseRedirect "https://example.com/landing") /\
  stored_clicks
    (RedirectView_get sample_env sample_request "abc123" zero_quota_world).2
    "abc123" = Some 1 /\
  (let cfg :=
     run_schedule [0; 1; 0; 1; 0; 1]
       (start_all [(sample_env, sample_request);
                   (sample_env, sample_request)] "abc123",
        quota_one_world) in
   map t_pc cfg.1 =
     [Finished (Ret (HttpResponseRedirect "https://example.com/landing"));
      Finished (Ret (HttpResponseRedirect "https://example.com/landing"))] /\
   length (click_records cfg.2) = 2).
Proof.
  split; [reflexivity|]. split; [reflexivity|].
  split; [intros n; reflexivity|].
  split; [vm_compute; reflexivity|].
  split; [vm_compute; reflexivity|].
  vm_compute. split; reflexivity.
Qed.

(** ** Passwords *)


Lemma sample_hasher_sound : hasher_sound sample_env.
Proof.
  repeat split; simpl.
  - intros _ raw. discriminate.
  - intros _ raw. apply String.eqb_refl.
  - intros _ raw x Hx. apply String.eqb_neq.
    intros Heq. cbv in Heq. congruence.
Defined.


(** ** The monad *)

Lemma add_calls_nil (w : World) : add_calls w [] = w.
Proof. destruct w; unfold add_calls; simpl. now rewrite app_nil_r. Qed.

Lemma add_calls_app (w : World) (a b : list event) :
  add_calls (add_calls w a) b = add_calls w (a ++ b).
Proof. unfold add_calls; simpl. now rewrite app_assoc. Qed.

Lemma silent_ret {A} (a : A) : silent (ret a).
Proof. intros w. now exists (Ret a). Qed.

Lemma silent_raise {A} (e : exn) : silent (@raise A e).
Proof. intros w. now exists (Raise e). Qed.

Lemma silent_lift {A} (o : outcome A) : silent (lift o).
Proof. intros w. now exists o. Qed.

Lemma silent_bind {A B} (m : M A) (k : A -> M B) :
  silent m -> (forall a, silent (k a)) -> silent (bind m k).
Proof.
  intros Hm Hk w. unfold bind. destruct (Hm w) as [[a|e] ->].
  - apply Hk.
  - now exists (Raise e).
Qed.

Lemma silent_response_json (response : http_response) :
  silent (response_json response).
Proof.
  unfold response_json. destruct (json response);
    [apply silent_ret | apply silent_raise].
Qed.

Create HintDb silent.
#[local] Hint Resolve silent_ret silent_raise silent_lift
  silent_response_json : silent.

Ltac silent_steps :=
  repeat first
    [ apply silent_bind; [solve [auto with silent] | intros ?]
    | solve [auto with silent]
    | match goal with
      | |- silent (if ?b then _ else _) => destruct b
      end ].

(** ** The geolocator *)

Lemma primary_lookup_calls (env : Env) (ip : string) (w : World) :
  exists o,
    primary_lookup env ip w = (o, add_calls w [HttpGet (primary_url ip)]).
Proof.
  unfold primary_lookup, http_get. unfold bind at 1 2. unfold log, lift.
  fold (add_calls w [HttpGet (primary_url ip)]).
  destruct (requests_get env (primary_url ip)) as [response|e];
    [|now exists (Raise e)].
  generalize (add_calls w [HttpGet (primary_url ip)]).
  change (silent
    (if (status_code response =? 200)%Z
     then data <- response_json response ;;
          country <- lift (py_get data "country_name" (JStr "Unknown")) ;;
          city <- lift (py_get data "city" (JStr "Unknown")) ;;
          country' <- lift (slice_or_unknown country) ;;
          city' <- lift (slice_or_unknown city) ;;
          ret (Some {| loc_country := country'; loc_city := city' |})
     else ret None)).
  silent_steps.
Qed.

Lemma secondary_lookup_calls (env : Env) (ip : string) (w : World) :
  exists o,
    secondary_lookup env ip w =
    (o, add_calls w [HttpGet (secondary_url ip)]).
Proof.
  unfold secondary_lookup, http_get. unfold bind at 1 2. unfold log, lift.
  fold (add_calls w [HttpGet (secondary_url ip)]).
  destruct (requests_get env (secondary_url ip)) as [response|e];
    [|now exists (Raise e)].
  generalize (add_calls w [HttpGet (secondary_url ip)]).
  change (silent
    (if (status_code response =? 200)%Z
     then data <- response_json response ;;
          status <- lift (py_get data "status" JNull) ;;
          if py_eq_str status "success"
          then country <- lift (py_get data "country" (JStr "Unknown")) ;;
               city <- lift (py_get data "city" (JStr "Unknown")) ;;
               country' <- lift (slice_or_unknown country) ;;
               city' <- lift (slice_or_unknown city) ;;
               ret (Some {| loc_country := country'; loc_city := city' |})
          else ret None
     else ret None)).
  silent_steps.
Qed.

(** The geolocator never raises, and everything it logs is an HTTP
    request. *)
Lemma get_location_from_ip_total (env : Env) (ip_address : option string)
    (w : World) :
  exists loc extra,
    get_location_from_ip env ip_address w = (Ret loc, add_calls w extra) /\
    forallb is_http_get extra = true.
Proof.
  unfold get_location_from_ip.
  destruct ip_address as [ip|];
    [|exists local_location, []; now rewrite add_calls_nil].
  destruct (negb (str_truthy ip) || existsb (String.eqb ip) loopback_names);
    [exists local_location, []; now rewrite add_calls_nil|].
  unfold bind, try_except.
  destruct (primary_lookup_calls env ip w) as [o1 ->].
  destruct o1 as [[loc|]|e].
  - now exists loc, [HttpGet (primary_url ip)].
  - now exists unknown_location, [HttpGet (primary_url ip)].
  - destruct (secondary_lookup_calls env ip
                (add_calls w [HttpGet (primary_url ip)])) as [o2 ->].
    rewrite add_calls_app.
    destruct o2 as [[loc|]|e2]; unfold ret.
    + now exists loc, [HttpGet (primary_url ip); HttpGet (secondary_url ip)].
    + now exists unknown_location,
        [HttpGet (primary_url ip); HttpGet (secondary_url ip)].
    + now exists unknown_location,
        [HttpGet (primary_url ip); HttpGet (secondary_url ip)].
Qed.

(** When the primary request raises, the secondary provider is asked. *)
Lemma primary_raises_asks_secondary (env : Env) (ip : string) (e : exn)
    (w : World) :
  (negb (str_truthy ip) || existsb (String.eqb ip) loopback_names) = false ->
  requests_get env (primary_url ip) = Raise e ->
  exists loc,
    get_location_from_ip env (Some ip) w =
    (Ret loc,
     add_calls w [HttpGet (primary_url ip); HttpGet (secondary_url ip)]).
Proof.
  intros Hloc Hreq. unfold get_location_from_ip. rewrite Hloc.
  unfold bind at 1. unfold try_except at 1.
  assert (Hp : primary_lookup env ip w =
               (Raise e, add_calls w [HttpGet (primary_url ip)])).
  { unfold primary_lookup, http_get. unfold bind at 1 2. unfold log, lift.
    now rewrite Hreq. }
  rewrite Hp. unfold try_except.
  destruct (secondary_lookup_calls env ip
              (add_calls w [HttpGet (primary_url ip)])) as [o2 ->].
  rewrite add_calls_app.
  destruct o2 as [[loc|]|e2]; unfold ret; eauto.
Qed.

(** When the primary provider answers with a status other than 200, the
    secondary provider is not asked and the location is unknown. *)
Lemma primary_non_200_skips_secondary (env : Env) (ip : string)
    (response : http_response) (w : World) :
  (negb (str_truthy ip) || existsb (String.eqb ip) loopback_names) = false ->
  requests_get env (primary_url ip) = Ret response ->
  status_code response <> 200%Z ->
  get_location_from_ip env (Some ip) w =
  (Ret unknown_location, add_calls w [HttpGet (primary_url ip)]).
Proof.
  intros Hloc Hreq Hst. unfold get_location_from_ip. rewrite Hloc.
  unfold bind at 1. unfold try_except at 1.
  assert (Hp : primary_lookup env ip w =
               (Ret None, add_calls w [HttpGet (primary_url ip)])).
  { unfold primary_lookup, http_get. unfold bind at 1 2. unfold log, lift.
    rewrite Hreq. apply Z.eqb_neq in Hst. now rewrite Hst. }
  now rewrite Hp.
Qed.

(** C5, at the input where it fails.  The client is 8.8.8.8, the primary
    provider answers 429 and the secondary one would report success with
    a country and a city.  The geolocator makes the primary request only
    and returns Unknown/Unknown; the secondary lookup, had it been made,
    would have returned the location. *)
Theorem get_location_from_ip_rate_limited :
  get_location_from_ip sample_env (Some "8.8.8.8") empty_world =
    (Ret unknown_location,
     add_calls empty_world [HttpGet "https://ipapi.co/8.8.8.8/json/"]) /\
  fst (secondary_lookup sample_env "8.8.8.8" empty_world) =
    Ret (Some {| loc_country := JStr "United States";
                 loc_city := JStr "Mountain View" |}).
Proof. split; reflexivity. Qed.

(** C6.  For an address that is absent, empty or one of the loopback
    names, the geolocator returns Local/Local and leaves the world as it
    is: nothing is logged, so no request was made. *)
Theorem get_location_from_ip_local (env : Env) (ip_address : option string)
    (w : World) :
  ip_address = None \/ ip_address = Some "" \/
  ip_address = Some "127.0.0.1" \/ ip_address = Some "::1" \/
  ip_address = Some "localhost" ->
  get_location_from_ip env ip_address w = (Ret local_location, w).
Proof.
  intros [-> | [-> | [-> | [-> | ->]]]]; reflexivity.
Qed.

Lemma get_location_from_ip_local_witness :
  get_location_from_ip sample_env (Some "127.0.0.1") sample_world =
  (Ret {| loc_country := JStr "Local"; loc_city := JStr "Local" |},
   sample_world).
Proof.
  apply (get_location_from_ip_local sample_env (Some "127.0.0.1")).
  right; right; left; reflexivity.
Defined.

(** ** The classifier *)

(** The classifier never raises, and everything it logs is a call of the
    parsing library. *)
Lemma parse_user_agent_total (env : Env) (user_agent_string : string)
    (w : World) :
  exists d extra,
    parse_user_agent env user_agent_string w = (Ret d, add_calls w extra) /\
    forallb is_ua_parse extra = true.
Proof.
  unfold parse_user_agent.
  destruct (str_truthy user_agent_string); simpl;
    [|exists unknown_ua, []; now rewrite add_calls_nil].
  destruct (ua_parse env) as [parse|];
    [|eexists _, []; now rewrite add_calls_nil].
  unfold try_except, parse_with_library. unfold bind at 1 2.
  unfold log, lift.
  fold (add_calls w [UaParse user_agent_string]).
  destruct (parse user_agent_string) as [user_agent|e];
    now eexists _, [UaParse user_agent_string].
Qed.

Lemma parse_user_agent_empty (env : Env) (w : World) :
  parse_user_agent env "" w = (Ret unknown_ua, w).
Proof. reflexivity. Qed.

(** ** Enrichment of a click *)

Lemma forallb_http_not_ua (extra : list event) (ua : string) :
  forallb is_http_get extra = true -> ~ In (UaParse ua) extra.
Proof.
  intros H Hin. rewrite forallb_forall in H. now apply H in Hin.
Qed.

Lemma forallb_ua_not_http (extra : list event) (u : string) :
  forallb is_ua_parse extra = true -> ~ In (HttpGet u) extra.
Proof.
  intros H Hin. rewrite forallb_forall in H. now apply H in Hin.
Qed.

(** [populate_analytics_data] never raises and never touches the raw
    fields; with an empty user agent it leaves the device fields alone and
    logs HTTP requests only; with an empty address it leaves the location
    fields alone and logs parser calls only. *)
Lemma populate_analytics_data_total (env : Env) (self : Click) (w : World) :
  exists self' extra,
    populate_analytics_data env self w = (Ret self', add_calls w extra) /\
    pk self' = pk self /\
    (str_truthy (user_agent self) = false ->
       device_type self' = device_type self /\
       browser self' = browser self /\
       operating_system self' = operating_system self /\
       forallb is_http_get extra = true) /\
    (opt_str_truthy (ip_address self) = false ->
       country self' = country self /\
       city self' = city self /\
       forallb is_ua_parse extra = true).
Proof.
  unfold populate_analytics_data. unfold bind at 1.
  destruct (str_truthy (user_agent self)) eqn:Hua.
  - unfold bind at 1.
    destruct (parse_user_agent_total env (user_agent self) w)
      as (d & ex1 & -> & Hex1).
    unfold ret at 1.
    cbn [with_ua_data ip_address].
    destruct (opt_str_truthy (ip_address self)) eqn:Hip.
    + unfold bind.
      destruct (get_location_from_ip_total env (ip_address self)
                  (add_calls w ex1)) as (loc & ex2 & -> & Hex2).
      rewrite add_calls_app. unfold ret.
      eexists _, (ex1 ++ ex2)%list. split; [reflexivity|].
      split; [reflexivity|]. split; intros [=].
    + unfold ret. eexists _, ex1. split; [reflexivity|].
      split; [reflexivity|]. split; [intros [=]|]. intros _. now simpl.
  - unfold ret at 1.
    destruct (opt_str_truthy (ip_address self)) eqn:Hip.
    + unfold bind.
      destruct (get_location_from_ip_total env (ip_address self) w)
        as (loc & ex2 & -> & Hex2).
      unfold ret. eexists _, ex2. split; [reflexivity|].
      split; [reflexivity|]. split; [|intros [=]]. intros _. now simpl.
    + unfold ret. exists self, []. rewrite add_calls_nil.
      split; [reflexivity|]. split; [reflexivity|]. now split.
Qed.

(** C10.  For a click that is being created ([Click(url=..,
    ip_address=.., user_agent=.., referer=..)]), enrichment returns
    normally and: with an empty user agent the classifier is not called
    (no parser call is logged) and [device_type], [browser] and
    [operating_system] are left as empty strings; with an absent or empty
    address no request is made and [country] and [city] are left as empty
    strings. *)
Theorem populate_analytics_data_blank (env : Env) (url : string)
    (ip : option string) (ua referer : string) (w : World) :
  exists self' extra,
    populate_analytics_data env (new_click url ip ua referer) w =
      (Ret self', add_calls w extra) /\
    (ua = "" ->
       device_type self' = "" /\ browser self' = "" /\
       operating_system self' = "" /\
       forall s, ~ In (UaParse s) extra) /\
    (ip = None \/ ip = Some "" ->
       country self' = JStr "" /\ city self' = JStr "" /\
       forall u, ~ In (HttpGet u) extra).
Proof.
  destruct (populate_analytics_data_total env
              (new_click url ip ua referer) w)
    as (self' & extra & Hrun & _ & Hua & Hip).
  exists self', extra. split; [exact Hrun|]. split.
  - intros ->. destruct (Hua eq_refl) as (H1 & H2 & H3 & H4).
    repeat split; try assumption.
    intros s. now apply forallb_http_not_ua.
  - intros Hempty.
    assert (Hf : opt_str_truthy
                   (ip_address (new_click url ip ua referer)) = false)
      by (destruct Hempty as [-> | ->]; reflexivity).
    destruct (Hip Hf) as (H1 & H2 & H3).
    repeat split; try assumption.
    intros u. now apply forallb_ua_not_http.
Qed.

Lemma populate_analytics_data_blank_witness :
  exists self' extra,
    populate_analytics_data sample_env (new_click "abc123" None "" "")
      sample_world = (Ret self', add_calls sample_world extra) /\
    device_type self' = "" /\ country self' = JStr "".
Proof.
  destruct (populate_analytics_data_blank sample_env "abc123" None "" ""
              sample_world) as (self' & extra & Hrun & Hua & Hip).
  exists self', extra. split; [exact Hrun|]. split.
  - apply Hua. reflexivity.
  - apply Hip. left. reflexivity.
Defined.

(** ** Saving a click *)

(** Enrichment never raises and leaves the key and the raw fields of the
    click alone. *)
Lemma populate_keeps_raw (env : Env) (self : Click) (w : World) :
  exists self' extra,
    populate_analytics_data env self w = (Ret self', add_calls w extra) /\
    pk self' = pk self /\
    raw_fields self' = raw_fields self.
Proof.
  unfold populate_analytics_data. unfold bind at 1.
  destruct (str_truthy (user_agent self)).
  - unfold bind at 1.
    destruct (parse_user_agent_total env (user_agent self) w)
      as (d & ex1 & -> & _).
    unfold ret at 1. cbn [with_ua_data ip_address].
    destruct (opt_str_truthy (ip_address self)).
    + unfold bind.
      destruct (get_location_from_ip_total env (ip_address self)
                  (add_calls w ex1)) as (loc & ex2 & -> & _).
      rewrite add_calls_app. unfold ret.
      now eexists _, (ex1 ++ ex2)%list.
    + unfold ret. now eexists _, ex1.
  - unfold ret at 1.
    destruct (opt_str_truthy (ip_address self)).
    + unfold bind.
      destruct (get_location_from_ip_total env (ip_address self) w)
        as (loc & ex2 & -> & _).
      unfold ret. now eexists _, ex2.
    + unfold ret. exists self, []. now rewrite add_calls_nil.
Qed.

Lemma fresh_pk_positive (rows : list Click) : (1 <= fresh_pk rows)%Z.
Proof.
  unfold fresh_pk.
  assert (0 <= fold_right (fun row acc =>
                  match pk row with
                  | Some k => Z.max k acc
                  | None => acc
                  end) 0 rows)%Z; [|lia].
  induction rows as [|row rows IH]; simpl; [lia|].
  destruct (pk row); lia.
Qed.

Lemma overwritten_row_present (rows : list Click) (self : Click) (k : Z) :
  existsb (has_pk k) rows = true ->
  In self (map (fun row => if has_pk k row then self else row) rows).
Proof.
  induction rows as [|row rows IH]; simpl; [discriminate|].
  destruct (has_pk k row); simpl; auto.
Qed.

(** A click that already has a (truthy) key is saved as it is: no
    enrichment, no outside call. *)
Lemma Click_save_existing (env : Env) (self : Click) (w : World) :
  pk_truthy (pk self) = true ->
  Click_save env self w = Model_save env self w.
Proof.
  intros Hpk. unfold Click_save. now rewrite Hpk.
Qed.

(** A click without an address is refused and nothing is written. *)
Lemma Model_save_refuses (env : Env) (self : Click) (w : World) :
  opt_str_truthy (ip_address self) = false ->
  Model_save env self w = (Raise IntegrityError, w).
Proof. intros Hip. unfold Model_save. now rewrite Hip. Qed.

Lemma Model_save_keeps (env : Env) (self : Click) (w : World) :
  opt_str_truthy (ip_address self) = true ->
  exists saved w',
    Model_save env self w = (Ret saved, w') /\
    derived saved = derived self /\
    calls w' = calls w /\ links w' = links w /\
    In saved (click_records w') /\
    (pk self = None -> pk saved = Some (fresh_pk (click_records w))) /\
    (forall k, pk self = Some k -> pk saved = Some k).
Proof.
  intros Hip. unfold Model_save. rewrite Hip. cbn [negb].
  destruct (pk self) as [k|] eqn:Hpk.
  - destruct (existsb (has_pk k) (click_records w)) eqn:Hex.
    + eexists _, _. split; [reflexivity|]. simpl.
      repeat split; try reflexivity; try congruence.
      now apply overwritten_row_present.
    + eexists _, _. split; [reflexivity|]. simpl.
      repeat split; try reflexivity; try congruence.
      apply in_or_app. right. now left.
  - eexists _, _. split; [reflexivity|]. simpl.
    repeat split; try reflexivity; try congruence.
    apply in_or_app. right. now left.
Qed.

(** What enrichment computes for a click that has an address: the device
    fields are those the classifier gives for the user agent (those the
    click already has when the user agent is empty), the location is the
    one the geolocator gives for the address. *)
Lemma populate_computes (env : Env) (self : Click) (w : World) :
  opt_str_truthy (ip_address self) = true ->
  exists dev w_a loc w_b enriched,
    (if str_truthy (user_agent self)
     then parse_user_agent env (user_agent self) w = (Ret dev, w_a)
     else dev = device_fields self /\ w_a = w) /\
    get_location_from_ip env (ip_address self) w_a = (Ret loc, w_b) /\
    populate_analytics_data env self w = (Ret enriched, w_b) /\
    derived enriched =
      (ua_device_type dev, ua_browser dev, ua_operating_system dev,
       loc_country loc, loc_city loc) /\
    pk enriched = pk self /\
    ip_address enriched = ip_address self.
Proof.
  intros Hip. unfold populate_analytics_data. unfold bind at 1.
  destruct (str_truthy (user_agent self)).
  - unfold bind at 1.
    destruct (parse_user_agent_total env (user_agent self) w)
      as (d & ex1 & Hparse & _).
    rewrite Hparse. unfold ret at 1. cbn [with_ua_data ip_address].
    rewrite Hip. unfold bind.
    destruct (get_location_from_ip_total env (ip_address self)
                (add_calls w ex1)) as (loc & ex2 & Hgeo & _).
    rewrite Hgeo. unfold ret.
    exists d, (add_calls w ex1), loc, (add_calls (add_calls w ex1) ex2).
    eexists. repeat split; try reflexivity. exact Hgeo.
  - unfold ret at 1. rewrite Hip. unfold bind.
    destruct (get_location_from_ip_total env (ip_address self) w)
      as (loc & ex2 & Hgeo & _).
    rewrite Hgeo. unfold ret.
    exists (device_fields self), w, loc, (add_calls w ex2).
    eexists. repeat split; try reflexivity. exact Hgeo.
Qed.



(** ** The redirect view *)

Lemma load_and_check_denied (env : Env) (request : Request)
    (short_code : string) (link : ShortenedURL) (w : World) :
  links w !! short_code = Some link ->
  can_be_accessed env link = false ->
  load_and_check env request short_code w = (Ret (inl unavailable_page), w).
Proof.
  intros Hlink Hdenied.
  unfold load_and_check, bind, get_object_or_404.
  now rewrite Hlink, Hdenied.
Qed.

Lemma can_be_accessed_false (env : Env) (self : ShortenedURL) :
  can_be_accessed env self = false <->
  is_active self = false \/ is_expired env self = true \/
  quota_exhausted self = true.
Proof.
  unfold can_be_accessed.
  destruct (is_active self), (is_expired env self), (quota_exhausted self);
    simpl; intuition congruence.
Qed.

(** A request for a link that cannot be accessed changes nothing. *)
Lemma RedirectView_get_denied (env : Env) (request : Request)
    (code : string) (link : ShortenedURL) (w : World) :
  links w !! code = Some link ->
  can_be_accessed env link = false ->
  RedirectView_get env request code w = (Ret unavailable_page, w).
Proof.
  intros Hlink Hdenied.
  unfold RedirectView_get, try_except. unfold bind at 1.
  now rewrite (load_and_check_denied env request code link w).
Qed.

(** C7.  When the short code names a link that is inactive, expired or
    out of quota, the view answers with the unavailable page and the
    world after the request is the world before it: no click row, the
    same counter and the same fields on every link, no outside call. *)
Theorem denied_leaves_state (env : Env) (request : Request)
    (short_code : string) (link : ShortenedURL) (w : World) :
  links w !! short_code = Some link ->
  is_active link = false \/ is_expired env link = true \/
  quota_exhausted link = true ->
  RedirectView_get env request short_code w =
  (Ret (Render "core/link_not_available.html" 200), w).
Proof.
  intros Hlink Hwhy. apply can_be_accessed_false in Hwhy.
  now apply (RedirectView_get_denied env request short_code link w).
Qed.

Lemma denied_leaves_state_witness :
  RedirectView_get sample_env sample_request "abc123" spent_world =
  (Ret (Render "core/link_not_available.html" 200), spent_world).
Proof.
  apply (denied_leaves_state sample_env sample_request "abc123" spent_link).
  - reflexivity.
  - right; right; reflexivity.
Defined.

(** *** An allowed request *)

Lemma Model_save_new (env : Env) (self : Click) (w : World) :
  pk self = None ->
  opt_str_truthy (ip_address self) = true ->
  Model_save env self w =
  (Ret (inserted self (fresh_pk (click_records w)) (now env)),
   {| links := links w;
      click_records :=
        click_records w ++
        [inserted self (fresh_pk (click_records w)) (now env)];
      calls := calls w |}).
Proof. intros Hpk Hip. unfold Model_save. now rewrite Hip, Hpk. Qed.

(** Tracking the click of a request that carries an address appends
    exactly one row, for the link that was loaded; links are not
    touched. *)
Lemma track_click_effect (env : Env) (request : Request)
    (link : ShortenedURL) (w : World) :
  opt_str_truthy (get_client_ip request) = true ->
  exists click extra,
    track_click env request link w =
    (Ret click,
     {| links := links w;
        click_records := click_records w ++ [click];
        calls := calls w ++ extra |}) /\
    raw_fields click =
      (short_code link, get_client_ip request,
       default "" (HTTP_USER_AGENT request),
       default "" (HTTP_REFERER request), Some (now env)).
Proof.
  intros Hip.
  unfold track_click, Click_objects_create, Click_save.
  unfold bind. cbn [pk new_click pk_truthy negb].
  set (c := new_click _ _ _ _).
  destruct (populate_keeps_raw env c w)
    as (enriched & extra & -> & Hpk & Hraw).
  unfold raw_fields in Hraw. injection Hraw as Hu Hi Ha Hr _.
  rewrite Model_save_new by (rewrite ?Hpk, ?Hi; assumption || reflexivity).
  eexists _, extra. split; [reflexivity|].
  unfold raw_fields.
  cbn [url ip_address user_agent referer clicked_at inserted].
  now rewrite Hu, Hi, Ha, Hr.
Qed.

(** The click of a request without an address is refused by the storage
    layer: the view raises and stores nothing. *)
Lemma track_click_refused (env : Env) (request : Request)
    (url : ShortenedURL) (w : World) :
  opt_str_truthy (get_client_ip request) = false ->
  exists extra,
    track_click env request url w = (Raise IntegrityError, add_calls w extra).
Proof.
  intros Hip.
  unfold track_click, Click_objects_create, Click_save.
  unfold bind. cbn [pk new_click pk_truthy negb].
  set (c := new_click _ _ _ _).
  destruct (populate_keeps_raw env c w)
    as (enriched & extra & -> & Hpk & Hraw).
  unfold raw_fields in Hraw. injection Hraw as _ Hi _ _ _.
  exists extra. apply Model_save_refuses. now rewrite Hi.
Qed.

Lemma can_be_accessed_open (env : Env) (self : ShortenedURL) :
  open_link self ->
  quota_at_least self (clicks self + 1) ->
  can_be_accessed env self = true.
Proof.
  intros (Ha & He & _) Hq. unfold can_be_accessed, is_expired.
  rewrite Ha, He. simpl.
  destruct (quota_exhausted self) eqn:Hex; [|reflexivity].
  apply quota_exhausted_true in Hex as (m & Hm & Hm0 & Hle).
  specialize (Hq m Hm Hm0). lia.
Qed.

Lemma load_and_check_allowed (env : Env) (request : Request)
    (short_code : string) (link : ShortenedURL) (w : World) :
  links w !! short_code = Some link ->
  can_be_accessed env link = true ->
  has_password link && negb (session_verified request short_code) = false ->
  load_and_check env request short_code w = (Ret (inr link), w).
Proof.
  intros Hlink Hok Hpw.
  unfold load_and_check, bind, get_object_or_404.
  now rewrite Hlink, Hok, Hpw.
Qed.

(** The link is saved with its counter raised before the redirect
    response is built, so the write happens even when the response is
    refused. *)
Lemma update_click_count_effect (env : Env) (url : ShortenedURL)
    (w : World) :
  update_click_count env url w =
  ((if redirect_accepted env (original_url url)
    then redirect_to_target url
    else Raise DisallowedRedirect),
   {| links := <[short_code url :=
                   with_updated_at (with_clicks url (clicks url + 1))
                     (now env)]> (links w);
      click_records := click_records w;
      calls := calls w |}).
Proof.
  unfold update_click_count, bind, ShortenedURL_save, redirect_response.
  cbn [original_url with_clicks short_code].
  now destruct (redirect_accepted env (original_url url)).
Qed.

(** A request that has passed the policy: without a client address the
    view raises [IntegrityError] and stores nothing; with one, a click
    row of the link is appended and the stored counter becomes the loaded
    counter plus one, and the answer is the redirect to the target, or
    [DisallowedRedirect] when the target is refused. *)
Lemma RedirectView_get_passed (env : Env) (request : Request)
    (code : string) (link : ShortenedURL) (w : World) :
  links w !! code = Some link ->
  can_be_accessed env link = true ->
  has_password link && negb (session_verified request code) = false ->
  (opt_str_truthy (get_client_ip request) = false /\
   exists extra,
     RedirectView_get env request code w =
     (Raise IntegrityError, add_calls w extra)) \/
  (opt_str_truthy (get_client_ip request) = true /\
   exists click extra,
     url click = short_code link /\
     RedirectView_get env request code w =
     ((if redirect_accepted env (original_url link)
       then redirect_to_target link
       else Raise DisallowedRedirect),
      {| links := <[short_code link :=
                      with_updated_at (with_clicks link (clicks link + 1))
                        (now env)]> (links w);
         click_records := click_records w ++ [click];
         calls := calls w ++ extra |})).
Proof.
  intros Hlink Hok Hpw.
  destruct (opt_str_truthy (get_client_ip request)) eqn:Hip.
  - right. split; [reflexivity|].
    unfold RedirectView_get, try_except. unfold bind at 1.
    rewrite (load_and_check_allowed env request code link w)
      by assumption.
    unfold bind.
    destruct (track_click_effect env request link w Hip)
      as (click & extra & -> & Hraw).
    rewrite update_click_count_effect.
    exists click, extra. split.
    + unfold raw_fields in Hraw. now injection Hraw.
    + now destruct (redirect_accepted env (original_url link)).
  - left. split; [reflexivity|].
    unfold RedirectView_get, try_except. unfold bind at 1.
    rewrite (load_and_check_allowed env request code link w)
      by assumption.
    unfold bind.
    destruct (track_click_refused env request link w Hip) as (extra & ->).
    now exists extra.
Qed.

(** An allowed request that can be served to the end: one click row is
    appended, the stored counter becomes the loaded counter plus one, the
    answer is a redirect to the target. *)
Lemma RedirectView_get_allowed (env : Env) (request : Request)
    (code : string) (link : ShortenedURL) (w : World) :
  links w !! code = Some link ->
  can_be_accessed env link = true ->
  has_password link && negb (session_verified request code) = false ->
  servable link (env, request) ->
  exists click extra,
    RedirectView_get env request code w =
    (redirect_to_target link,
     {| links := <[short_code link :=
                     with_updated_at (with_clicks link (clicks link + 1))
                       (now env)]> (links w);
        click_records := click_records w ++ [click];
        calls := calls w ++ extra |}).
Proof.
  intros Hlink Hok Hpw [Hip Hacc]. cbn [fst snd] in *.
  destruct (RedirectView_get_passed env request code link w Hlink Hok Hpw)
    as [[Hno _] | [_ (click & extra & _ & H)]]; [congruence|].
  exists click, extra. now rewrite H, Hacc.
Qed.

(** The scenario of the specification: an open link without quota and
    with no clicks is requested once. *)
Example first_click_scenario :
  exists click extra,
    RedirectView_get sample_env sample_request "abc123" sample_world =
    (Ret (HttpResponseRedirect "https://example.com/landing"),
     {| links := {[ "abc123" :=
                    with_updated_at (with_clicks sample_link 1) 2000 ]};
        click_records := [click];
        calls := extra |}).
Proof.
  destruct (RedirectView_get_allowed sample_env sample_request "abc123"
              sample_link sample_world) as (click & extra & H);
    try reflexivity.
  { split; reflexivity. }
  exists click, extra. rewrite H. f_equal.
Qed.

(** *** Requests served one after another *)

Lemma same_policy_refl (a : ShortenedURL) : same_policy a a.
Proof. now repeat split. Qed.

Lemma open_link_policy (a b : ShortenedURL) :
  same_policy a b -> open_link b -> open_link a.
Proof.
  intros (_ & _ & Ha & He & Hp & _) (Ha' & He' & Hp').
  repeat split; congruence.
Qed.

Lemma open_link_no_prompt (self : ShortenedURL) (request : Request)
    (code : string) :
  open_link self ->
  has_password self && negb (session_verified request code) = false.
Proof.
  intros (_ & _ & Hp). unfold has_password. now rewrite Hp.
Qed.

(** As long as the quota leaves room, every one of a series of requests
    for an open link that can be served to the end is redirected, and
    each adds one to the counter and one click row. *)
Lemma serve_all_open (requests : list (Env * Request)) :
  forall (code : string) (link : ShortenedURL) (w : World),
    links w !! code = Some link ->
    short_code link = code ->
    open_link link ->
    quota_at_least link (clicks link + length requests) ->
    Forall (servable link) requests ->
    exists link' w',
      serve_all requests code w =
        (repeat (redirect_to_target link) (length requests), w') /\
      links w' !! code = Some link' /\
      same_policy link' link /\
      clicks link' = clicks link + length requests /\
      length (click_records w') =
        length (click_records w) + length requests.
Proof.
  induction requests as [|[env request] rest IH];
    intros code link w Hlink Hcode Hopen Hroom Hserv.
  - exists link, w. simpl. rewrite !Nat.add_0_r.
    repeat split; auto.
  - cbn [serve_all length].
    apply Forall_cons in Hserv as [Hfirst Hrest].
    assert (Hok : can_be_accessed env link = true).
    { apply can_be_accessed_open; [exact Hopen|].
      intros m Hm Hm0. specialize (Hroom m Hm Hm0). simpl in Hroom. lia. }
    destruct (RedirectView_get_allowed env request code link w Hlink Hok
                (open_link_no_prompt link request code Hopen) Hfirst)
      as (click & extra & ->).
    set (link1 := with_updated_at (with_clicks link (clicks link + 1))
                    (now env)).
    set (w1 := {| links := <[short_code link := link1]> (links w);
                  click_records := click_records w ++ [click];
                  calls := calls w ++ extra |}).
    destruct (IH code link1 w1) as (link' & w' & Hrun & Hl & Hp & Hc & Hr).
    + subst w1. simpl. rewrite Hcode. apply lookup_insert_eq.
    + exact Hcode.
    + exact Hopen.
    + intros m Hm Hm0. specialize (Hroom m Hm Hm0).
      simpl in *. lia.
    + exact Hrest.
    + exists link', w'. rewrite Hrun.
      split; [reflexivity|]. split; [exact Hl|]. split; [exact Hp|].
      split.
      * rewrite Hc. simpl. lia.
      * rewrite Hr. subst w1. simpl. rewrite length_app. simpl. lia.
Qed.

(** ** Overlapping requests *)

Lemma count_threads_insert (f : thread -> bool) (ts : list thread) :
  forall (i : nat) (t t' : thread),
    ts !! i = Some t ->
    count_threads f (<[i := t']> ts) + Nat.b2n (f t) =
    count_threads f ts + Nat.b2n (f t').
Proof.
  unfold count_threads.
  induction ts as [|a ts IH]; intros [|i] t t' Hi; simpl in *;
    try discriminate.
  - injection Hi as ->. destruct (f t), (f t'); simpl; lia.
  - specialize (IH i t t' Hi). destruct (f a); simpl; lia.
Qed.

Lemma count_threads_le (f : thread -> bool) (ts : list thread) :
  count_threads f ts <= length ts.
Proof.
  unfold count_threads. induction ts as [|a ts IH]; simpl; [lia|].
  destruct (f a); simpl; lia.
Qed.

Lemma count_threads_lt (f : thread -> bool) (ts : list thread) :
  forall (i : nat) (t : thread),
    ts !! i = Some t -> f t = false -> count_threads f ts < length ts.
Proof.
  unfold count_threads.
  induction ts as [|a ts IH]; intros [|i] t Hi Hf; simpl in *;
    try discriminate.
  - injection Hi as ->. rewrite Hf.
    pose proof (count_threads_le f ts). unfold count_threads in *. lia.
  - specialize (IH i t Hi Hf). destruct (f a); simpl; lia.
Qed.

Lemma count_threads_all (f : thread -> bool) (ts : list thread) :
  forallb f ts = true -> count_threads f ts = length ts.
Proof.
  unfold count_threads. induction ts as [|a ts IH]; simpl; [reflexivity|].
  intros [Ha Hts]%andb_true_iff. rewrite Ha. simpl. now rewrite IH.
Qed.

Lemma snapshot_ok_mono (link0 : ShortenedURL) (d d' : nat)
    (u : ShortenedURL) :
  d <= d' -> snapshot_ok link0 d u -> snapshot_ok link0 d' u.
Proof. intros Hd (Hp & Hlo & Hhi). repeat split; try apply Hp; lia. Qed.

Lemma thread_ok_mono (link0 : ShortenedURL) (d d' : nat) (t : thread) :
  d <= d' -> thread_ok link0 d t -> thread_ok link0 d' t.
Proof.
  intros Hd (Hc & Hs & Hpc). split; [exact Hc|]. split; [exact Hs|].
  destruct (t_pc t); try exact Hpc;
    now apply (snapshot_ok_mono link0 d d').
Qed.

(** *** One step of one request *)

Lemma thread_step_load (t : thread) (w : World) (cur : ShortenedURL) :
  t_pc t = AtLoad ->
  links w !! t_code t = Some cur ->
  open_link cur ->
  quota_at_least cur (clicks cur + 1) ->
  thread_step t w = (at_pc t (AtTrack cur), w).
Proof.
  intros Hpc Hlink Hopen Hroom. unfold thread_step. rewrite Hpc.
  rewrite (load_and_check_allowed (t_env t) (t_request t) (t_code t) cur w);
    auto using can_be_accessed_open, open_link_no_prompt.
Qed.

Lemma thread_step_track (t : thread) (w : World) (u : ShortenedURL) :
  t_pc t = AtTrack u ->
  opt_str_truthy (get_client_ip (t_request t)) = true ->
  exists click extra,
    thread_step t w =
    (at_pc t (AtUpdate u),
     {| links := links w;
        click_records := click_records w ++ [click];
        calls := calls w ++ extra |}).
Proof.
  intros Hpc Hip. unfold thread_step. rewrite Hpc.
  destruct (track_click_effect (t_env t) (t_request t) u w Hip)
    as (click & extra & -> & _).
  now exists click, extra.
Qed.

(** The write-back: what is stored is the counter of the object in the
    memory of the request, plus one, whatever the stored counter is by
    then, and whether or not the redirect response is built
    afterwards. *)
Lemma thread_step_update (t : thread) (w : World) (u : ShortenedURL) :
  t_pc t = AtUpdate u ->
  thread_step t w =
  (at_pc t (Finished (if redirect_accepted (t_env t) (original_url u)
                      then redirect_to_target u
                      else Raise DisallowedRedirect)),
   {| links := <[short_code u :=
                   with_updated_at (with_clicks u (clicks u + 1))
                     (now (t_env t))]> (links w);
      click_records := click_records w;
      calls := calls w |}).
Proof.
  intros Hpc. unfold thread_step. rewrite Hpc.
  rewrite update_click_count_effect.
  destruct (redirect_accepted (t_env t) (original_url u)); reflexivity.
Qed.

Lemma thread_step_update_accepted (t : thread) (w : World)
    (u : ShortenedURL) :
  t_pc t = AtUpdate u ->
  redirect_accepted (t_env t) (original_url u) = true ->
  thread_step t w =
  (at_pc t (Finished (redirect_to_target u)),
   {| links := <[short_code u :=
                   with_updated_at (with_clicks u (clicks u + 1))
                     (now (t_env t))]> (links w);
      click_records := click_records w;
      calls := calls w |}).
Proof.
  intros Hpc Hok. rewrite (thread_step_update t w u Hpc).
  now rewrite Hok.
Qed.

Lemma thread_step_finished (t : thread) (w : World) (r : outcome response) :
  t_pc t = Finished r -> thread_step t w = (t, w).
Proof. intros Hpc. unfold thread_step. now rewrite Hpc. Qed.

(** A request that runs alone behaves as the view does. *)
Lemma run_alone_is_view (env : Env) (request : Request) (code : string)
    (w : World) :
  run_alone (start env request code) w =
  let '(o, w') := RedirectView_get env request code w in
  (at_pc (start env request code) (Finished o), w').
Proof.
  unfold run_alone, RedirectView_get, try_except. unfold bind at 1.
  unfold thread_step at 1. cbn [start at_pc t_pc t_env t_request t_code].
  destruct (load_and_check env request code w) as [[[resp|url]|e] w1].
  - reflexivity.
  - unfold thread_step at 1. cbn [start at_pc t_pc t_env t_request t_code].
    unfold bind.
    destruct (track_click env request url w1) as [[click|e] w2].
    + unfold thread_step. cbn [start at_pc t_pc t_env t_request t_code].
      destruct (update_click_count env url w2) as [[resp|e] w3];
        [reflexivity|].
      unfold finish_with.
      destruct (on_exception e w3) as [o w4]. reflexivity.
    + unfold finish_with.
      destruct (on_exception e w2) as [o w3]. reflexivity.
  - unfold finish_with. destruct (on_exception e w1) as [o w2].
    reflexivity.
Qed.

(** *** The invariant is kept by every step of every request *)

Lemma quota_at_least_policy (a b : ShortenedURL) (n k : nat) :
  same_policy a b -> quota_at_least b n -> k <= n -> quota_at_least a k.
Proof.
  intros (_ & _ & _ & _ & _ & Hm) Hq Hk m Ha Hm0.
  rewrite Hm in Ha. specialize (Hq m Ha Hm0). lia.
Qed.

Ltac flag_of Ht :=
  unfold is_finished, is_tracked; cbn [at_pc t_pc]; try rewrite Ht;
  reflexivity.

Lemma sched_step_invariant (link0 : ShortenedURL) (r0 : nat)
    (cfg : list thread * World) (i : nat) :
  open_link link0 ->
  quota_at_least link0 (clicks link0 + length cfg.1) ->
  race_invariant link0 r0 cfg ->
  race_invariant link0 r0 (sched_step cfg i) /\
  length (sched_step cfg i).1 = length cfg.1.
Proof.
  destruct cfg as [ts w]. intros Hopen Hroom Hinv.
  unfold sched_step. cbn [fst snd] in *.
  destruct (ts !! i) as [t|] eqn:Hi; [|now split].
  destruct Hinv as ((cur & Hcur & Hsnap & Hmoved) & Hrows & Hall).
  cbn [fst snd] in *.
  pose proof (Forall_lookup_1 _ _ _ _ Hall Hi) as (Hcode & Hserv & Hpc).
  destruct (t_pc t) as [|u|u|r] eqn:Ht.
  - (* the request loads the link *)
    assert (Hfin : is_finished t = false) by flag_of Ht.
    pose proof (count_threads_lt is_finished ts i t Hi Hfin) as Hlt.
    destruct Hsnap as (Hp & Hlo & Hhi).
    rewrite (thread_step_load t w cur Ht); cycle 1.
    { now rewrite Hcode. }
    { now apply (open_link_policy cur link0). }
    { apply (quota_at_least_policy cur link0
               (clicks link0 + length ts)); auto. lia. }
    cbn [fst snd]. split; [|apply length_insert].
    pose proof (count_threads_insert is_finished ts i t
                  (at_pc t (AtTrack cur)) Hi) as Hd.
    pose proof (count_threads_insert is_tracked ts i t
                  (at_pc t (AtTrack cur)) Hi) as Hk.
    replace (is_finished t) with false in Hd by flag_of Ht.
    replace (is_tracked t) with false in Hk by flag_of Ht.
    replace (is_finished (at_pc t (AtTrack cur))) with false in Hd
      by flag_of Ht.
    replace (is_tracked (at_pc t (AtTrack cur))) with false in Hk
      by flag_of Ht.
    cbn [Nat.b2n] in Hd, Hk.
    apply Nat.add_cancel_r in Hd, Hk.
    unfold race_invariant. cbn [fst snd]. rewrite Hd, Hk.
    split; [|split].
    + exists cur. split; [exact Hcur|].
      split; [exact (conj Hp (conj Hlo Hhi)) | exact Hmoved].
    + exact Hrows.
    + apply Forall_insert; [exact Hall|].
      split; [exact Hcode|]. split; [exact Hserv|].
      exact (conj Hp (conj Hlo Hhi)).
  - (* the request inserts its click row *)
    destruct (thread_step_track t w u Ht (proj1 Hserv))
      as (click & extra & ->).
    cbn [fst snd]. split; [|apply length_insert].
    pose proof (count_threads_insert is_finished ts i t
                  (at_pc t (AtUpdate u)) Hi) as Hd.
    pose proof (count_threads_insert is_tracked ts i t
                  (at_pc t (AtUpdate u)) Hi) as Hk.
    replace (is_finished t) with false in Hd by flag_of Ht.
    replace (is_tracked t) with false in Hk by flag_of Ht.
    replace (is_finished (at_pc t (AtUpdate u))) with false in Hd
      by flag_of Ht.
    replace (is_tracked (at_pc t (AtUpdate u))) with true in Hk
      by flag_of Ht.
    cbn [Nat.b2n] in Hd, Hk.
    apply Nat.add_cancel_r in Hd. rewrite Nat.add_0_r in Hk.
    unfold race_invariant. cbn [fst snd links click_records].
    rewrite Hd, Hk. split; [|split].
    + exists cur. split; [exact Hcur|]. split; [exact Hsnap|exact Hmoved].
    + rewrite length_app. simpl. lia.
    + apply Forall_insert; [exact Hall|].
      split; [exact Hcode|]. split; [exact Hserv|]. exact Hpc.
  - (* the request writes the link back *)
    rewrite (thread_step_update_accepted t w u Ht).
    2:{ destruct Hpc as ((Hurl & _) & _). rewrite Hurl. apply Hserv. }
    cbn [fst snd]. split; [|apply length_insert].
    pose proof (count_threads_insert is_finished ts i t
                  (at_pc t (Finished (redirect_to_target u))) Hi) as Hd.
    pose proof (count_threads_insert is_tracked ts i t
                  (at_pc t (Finished (redirect_to_target u))) Hi) as Hk.
    replace (is_finished t) with false in Hd by flag_of Ht.
    replace (is_tracked t) with true in Hk by flag_of Ht.
    replace (is_finished (at_pc t (Finished (redirect_to_target u))))
      with true in Hd by flag_of Ht.
    replace (is_tracked (at_pc t (Finished (redirect_to_target u))))
      with true in Hk by flag_of Ht.
    cbn [Nat.b2n] in Hd, Hk.
    rewrite Nat.add_0_r in Hd. apply Nat.add_cancel_r in Hk.
    destruct Hpc as (Hp & Hlo & Hhi).
    assert (Hkey : short_code u = short_code link0) by apply Hp.
    unfold race_invariant. cbn [fst snd links click_records].
    rewrite Hd, Hk. split; [|split].
    + eexists. split; [rewrite Hkey; apply lookup_insert_eq|].
      split; [|simpl; lia].
      split; [exact Hp|]. simpl. lia.
    + lia.
    + apply Forall_insert.
      * eapply Forall_impl; [exact Hall|].
        intros t'. apply thread_ok_mono. lia.
      * split; [exact Hcode|]. split; [exact Hserv|].
        cbn. unfold redirect_to_target.
        destruct Hp as (-> & _). reflexivity.
  - (* the request has finished already *)
    rewrite (thread_step_finished t w r Ht). cbn [fst snd].
    rewrite list_insert_id by exact Hi. split; [|reflexivity].
    unfold race_invariant. cbn [fst snd]. split; [|split]; auto.
    exists cur. split; [exact Hcur|]. split; [exact Hsnap|exact Hmoved].
Qed.

Lemma run_schedule_invariant (link0 : ShortenedURL) (r0 : nat)
    (schedule : list nat) :
  forall cfg : list thread * World,
    open_link link0 ->
    quota_at_least link0 (clicks link0 + length cfg.1) ->
    race_invariant link0 r0 cfg ->
    race_invariant link0 r0 (run_schedule schedule cfg).
Proof.
  unfold run_schedule.
  induction schedule as [|i rest IH]; intros cfg Hopen Hroom Hinv;
    [exact Hinv|].
  cbn [fold_left].
  destruct (sched_step_invariant link0 r0 cfg i Hopen Hroom Hinv)
    as [Hinv' Hlen].
  apply IH; [exact Hopen | now rewrite Hlen | exact Hinv'].
Qed.

Lemma start_all_invariant (link0 : ShortenedURL)
    (requests : list (Env * Request)) (w : World) :
  links w !! short_code link0 = Some link0 ->
  Forall (servable link0) requests ->
  race_invariant link0 (length (click_records w))
    (start_all requests (short_code link0), w).
Proof.
  intros Hlink Hserv.
  assert (Hcount : forall f, (forall t, t_pc t = AtLoad -> f t = false) ->
            count_threads f (start_all requests (short_code link0)) = 0).
  { clear Hserv. intros f Hf. unfold count_threads, start_all.
    induction requests as [|er rest IH]; simpl; [reflexivity|].
    now rewrite Hf. }
  unfold race_invariant. cbn [fst snd].
  rewrite !Hcount;
    [|intros t Ht; unfold is_tracked; now rewrite Ht
     |intros t Ht; unfold is_finished; now rewrite Ht].
  split; [|split].
  - exists link0. split; [exact Hlink|]. split; [|lia].
    split; [apply same_policy_refl|lia].
  - lia.
  - unfold start_all. apply Forall_map.
    eapply Forall_impl; [exact Hserv|].
    intros [env request] Her. split; [reflexivity|].
    split; [exact Her | exact I].
Qed.

Lemma sched_step_length (cfg : list thread * World) (i : nat) :
  length (sched_step cfg i).1 = length cfg.1.
Proof.
  unfold sched_step. destruct (cfg.1 !! i) as [t|]; [|reflexivity].
  destruct (thread_step t cfg.2) as [t' w']. apply length_insert.
Qed.

Lemma run_schedule_length (schedule : list nat) :
  forall cfg : list thread * World,
    length (run_schedule schedule cfg).1 = length cfg.1.
Proof.
  unfold run_schedule.
  induction schedule as [|i rest IH]; intros cfg; [reflexivity|].
  cbn [fold_left]. rewrite IH. apply sched_step_length.
Qed.

Lemma finished_is_tracked (t : thread) :
  is_finished t = true -> is_tracked t = true.
Proof. unfold is_finished, is_tracked. now destruct (t_pc t). Qed.

Lemma all_finished_redirected (link0 : ShortenedURL) (d : nat)
    (ts : list thread) :
  Forall (thread_ok link0 d) ts ->
  forallb is_finished ts = true ->
  Forall (fun t => t_pc t = Finished (redirect_to_target link0)) ts.
Proof.
  intros Hall Hfin. rewrite forallb_forall in Hfin.
  rewrite Forall_forall in *. intros t Ht.
  destruct (Hall t Ht) as (_ & _ & Hpc).
  specialize (Hfin t (proj1 (list_elem_of_In _ _) Ht)).
  unfold is_finished in Hfin.
  destruct (t_pc t); try discriminate. now rewrite Hpc.
Qed.




(* ================================================================== *)
(** * Further properties of the code *)
(* ================================================================== *)

(** ** Labels and icons *)

Ltac split_ifs :=
  repeat match goal with
         | |- context [if ?b then _ else _] => destruct b
         end.

Lemma fallback_device_labels (user_agent_string : string) :
  In (ua_device_type (parse_user_agent_fallback user_agent_string))
     ["Mobile"; "Tablet"; "Desktop"].
Proof.
  unfold parse_user_agent_fallback. cbn [ua_device_type].
  split_ifs; simpl; tauto.
Qed.

Lemma fallback_browser_labels (user_agent_string : string) :
  In (ua_browser (parse_user_agent_fallback user_agent_string))
     ["Chrome"; "Firefox"; "Safari"; "Edge"; "Opera"; "Internet Explorer";
      "Unknown"].
Proof.
  unfold parse_user_agent_fallback. cbn [ua_browser].
  split_ifs; simpl; tauto.
Qed.

Lemma fallback_os_labels (user_agent_string : string) :
  In (ua_operating_system (parse_user_agent_fallback user_agent_string))
     ["Windows"; "macOS"; "Linux"; "Android"; "iOS"; "Unknown"].
Proof.
  unfold parse_user_agent_fallback. cbn [ua_operating_system].
  split_ifs; simpl; tauto.
Qed.

(** X1.  Whatever the user agent, the labels of the fallback classifier
    have their own icons: the device icon is never the question mark, the
    browser icon is the globe only for the label Unknown, and the OS icon
    is the generic desktop only for the label Unknown. *)
Theorem fallback_labels_have_icons (user_agent_string : string) :
  get_device_icon
    (ua_device_type (parse_user_agent_fallback user_agent_string))
    <> "fas fa-question-circle" /\
  (get_browser_icon
     (ua_browser (parse_user_agent_fallback user_agent_string))
     = "fas fa-globe" <->
   ua_browser (parse_user_agent_fallback user_agent_string) = "Unknown") /\
  (get_os_icon
     (ua_operating_system (parse_user_agent_fallback user_agent_string))
     = "fas fa-desktop" <->
   ua_operating_system (parse_user_agent_fallback user_agent_string)
     = "Unknown").
Proof.
  split; [|split].
  - pose proof (fallback_device_labels user_agent_string) as H.
    cbn [In] in H. destruct H as [<-|[<-|[<-|[]]]]; discriminate.
  - pose proof (fallback_browser_labels user_agent_string) as H.
    cbn [In] in H.
    destruct H as [<-|[<-|[<-|[<-|[<-|[<-|[<-|[]]]]]]]];
      split; first [discriminate | reflexivity].
  - pose proof (fallback_os_labels user_agent_string) as H.
    cbn [In] in H.
    destruct H as [<-|[<-|[<-|[<-|[<-|[<-|[]]]]]]];
      split; first [discriminate | reflexivity].
Qed.

(** ** The classifier as a whole *)

Lemma str_take_length (n : nat) (s : string) :
  String.length (str_take n s) <= n.
Proof.
  revert s; induction n as [|n IH]; intros [|c s]; simpl; try lia.
  specialize (IH s). lia.
Qed.

Lemma fallback_fits (user_agent_string : string) :
  String.length
    (ua_device_type (parse_user_agent_fallback user_agent_string)) <= 50 /\
  String.length
    (ua_browser (parse_user_agent_fallback user_agent_string)) <= 100 /\
  String.length
    (ua_operating_system (parse_user_agent_fallback user_agent_string))
    <= 100.
Proof.
  split; [|split].
  - pose proof (fallback_device_labels user_agent_string) as H.
    cbn [In] in H. destruct H as [<-|[<-|[<-|[]]]]; simpl; lia.
  - pose proof (fallback_browser_labels user_agent_string) as H.
    cbn [In] in H.
    destruct H as [<-|[<-|[<-|[<-|[<-|[<-|[<-|[]]]]]]]]; simpl; lia.
  - pose proof (fallback_os_labels user_agent_string) as H.
    cbn [In] in H.
    destruct H as [<-|[<-|[<-|[<-|[<-|[<-|[]]]]]]]; simpl; lia.
Qed.

(** X2.  [parse_user_agent] never raises, calls the parsing library at
    most once, and whatever the library answers its three results fit the
    columns of [Click]: at most 50 characters for the device type and 100
    for the browser and the operating system. *)
Theorem parse_user_agent_fits_columns (env : Env)
    (user_agent_string : string) (w : World) :
  exists d extra,
    parse_user_agent env user_agent_string w = (Ret d, add_calls w extra) /\
    (extra = [] \/ extra = [UaParse user_agent_string]) /\
    String.length (ua_device_type d) <= 50 /\
    String.length (ua_browser d) <= 100 /\
    String.length (ua_operating_system d) <= 100.
Proof.
  unfold parse_user_agent.
  destruct (str_truthy user_agent_string); simpl.
  2:{ exists unknown_ua, []. rewrite add_calls_nil.
      split; [reflexivity|]. split; [now left|]. simpl. lia. }
  destruct (ua_parse env) as [parse|].
  2:{ eexists _, []. rewrite add_calls_nil.
      split; [reflexivity|]. split; [now left|]. apply fallback_fits. }
  unfold try_except, parse_with_library. unfold bind at 1 2.
  unfold log, lift.
  fold (add_calls w [UaParse user_agent_string]).
  destruct (parse user_agent_string) as [user_agent|e].
  - eexists _, [UaParse user_agent_string].
    split; [reflexivity|]. split; [now right|].
    cbn [ua_device_type ua_browser ua_operating_system].
    split; [|split; apply str_take_length].
    split_ifs; simpl; lia.
  - eexists _, [UaParse user_agent_string].
    split; [reflexivity|]. split; [now right|]. apply fallback_fits.
Qed.

(** X3.  When the parsing library is not installed, or raises on the
    string, a non-empty user agent is classified by the fallback. *)
Theorem parse_user_agent_degrades (env : Env) (user_agent_string : string)
    (w : World) :
  user_agent_string <> "" ->
  (ua_parse env = None \/
   exists parse e, ua_parse env = Some parse /\
                   parse user_agent_string = Raise e) ->
  (parse_user_agent env user_agent_string w).1 =
  Ret (parse_user_agent_fallback user_agent_string).
Proof.
  intros Hne Hlib. apply str_truthy_true in Hne.
  unfold parse_user_agent. rewrite Hne. simpl.
  destruct Hlib as [-> | (parse & e & -> & He)]; [reflexivity|].
  unfold try_except, parse_with_library. unfold bind at 1 2.
  unfold log, lift. now rewrite He.
Qed.

Lemma parse_user_agent_degrades_witness :
  (parse_user_agent sample_env "Opera/9.80 (Windows NT 6.1)" sample_world).1 =
  Ret {| ua_device_type := "Desktop"; ua_browser := "Opera";
         ua_operating_system := "Windows" |}.
Proof.
  apply (parse_user_agent_degrades sample_env "Opera/9.80 (Windows NT 6.1)"
           sample_world).
  - discriminate.
  - left. reflexivity.
Defined.

(** ** The geolocator as a whole *)

Lemma str_take_truthy (n : nat) (s : string) :
  str_truthy s = true -> str_truthy (str_take (S n) s) = true.
Proof. now destruct s. Qed.

Lemma take_field_ok (n : nat) (s : string) :
  str_truthy s = true -> field_ok (JStr (str_take (S n) s)) \/ 100 < S n.
Proof.
  intros Hs. destruct (Nat.le_gt_cases (S n) 100) as [Hn|Hn]; [left|now right].
  split.
  - now apply str_take_truthy.
  - pose proof (str_take_length (S n) s). lia.
Qed.

Lemma slice_or_unknown_ok (v v' : jvalue) :
  slice_or_unknown v = Ret v' -> field_ok v'.
Proof.
  unfold slice_or_unknown.
  destruct (truthy v) eqn:Hv.
  - destruct v as [| | |s|l|]; unfold slice100; try discriminate.
    + intros [= <-].
      destruct (take_field_ok 99 s Hv) as [H|H]; [exact H|lia].
    + intros [= <-]. split.
      * destruct l; [discriminate|reflexivity].
      * rewrite length_take. lia.
  - intros [= <-]. split; [reflexivity|]. cbn. lia.
Qed.

Lemma silent_with_ret {A} (P : A -> Prop) (a : A) :
  P a -> silent_with P (ret a).
Proof.
  intros Ha w. exists (Ret a). split; [reflexivity|]. now intros ? [= <-].
Qed.

Lemma silent_with_raise {A} (P : A -> Prop) (e : exn) :
  silent_with P (raise e).
Proof. intros w. exists (Raise e). split; [reflexivity|]. discriminate. Qed.

Lemma silent_with_lift {A} (P : A -> Prop) (o : outcome A) :
  (forall a, o = Ret a -> P a) -> silent_with P (lift o).
Proof. intros Ho w. now exists o. Qed.

Lemma silent_with_bind {A B} (Q : A -> Prop) (P : B -> Prop)
    (m : M A) (k : A -> M B) :
  silent_with Q m ->
  (forall a, Q a -> silent_with P (k a)) ->
  silent_with P (bind m k).
Proof.
  intros Hm Hk w. unfold bind. destruct (Hm w) as [[a|e] [-> Ha]].
  - apply Hk. now apply Ha.
  - exists (Raise e). split; [reflexivity|]. discriminate.
Qed.

Lemma silent_with_any {A} (m : M A) :
  silent m -> silent_with (fun _ => True) m.
Proof. intros Hm w. destruct (Hm w) as [o ->]. now exists o. Qed.

Lemma location_built_ok (data : jvalue) (country_key city_key : string) :
  silent_with lookup_ok
    (country <- lift (py_get data country_key (JStr "Unknown")) ;;
     city <- lift (py_get data city_key (JStr "Unknown")) ;;
     country' <- lift (slice_or_unknown country) ;;
     city' <- lift (slice_or_unknown city) ;;
     ret (Some {| loc_country := country'; loc_city := city' |})).
Proof.
  apply (silent_with_bind (fun _ => True));
    [apply silent_with_any, silent_lift | intros country _].
  apply (silent_with_bind (fun _ => True));
    [apply silent_with_any, silent_lift | intros city _].
  apply (silent_with_bind field_ok);
    [apply silent_with_lift, slice_or_unknown_ok | intros country' Hc].
  apply (silent_with_bind field_ok);
    [apply silent_with_lift, slice_or_unknown_ok | intros city' Hc'].
  apply silent_with_ret. now split.
Qed.

Lemma primary_lookup_ok (env : Env) (ip : string) (w : World) :
  exists o,
    primary_lookup env ip w = (o, add_calls w [HttpGet (primary_url ip)]) /\
    forall r, o = Ret r -> lookup_ok r.
Proof.
  unfold primary_lookup, http_get. unfold bind at 1 2. unfold log, lift.
  fold (add_calls w [HttpGet (primary_url ip)]).
  destruct (requests_get env (primary_url ip)) as [response|e];
    [|exists (Raise e); split; [reflexivity|discriminate]].
  generalize (add_calls w [HttpGet (primary_url ip)]).
  change (silent_with lookup_ok
    (if (status_code response =? 200)%Z
     then data <- response_json response ;;
          country <- lift (py_get data "country_name" (JStr "Unknown")) ;;
          city <- lift (py_get data "city" (JStr "Unknown")) ;;
          country' <- lift (slice_or_unknown country) ;;
          city' <- lift (slice_or_unknown city) ;;
          ret (Some {| loc_country := country'; loc_city := city' |})
     else ret None)).
  destruct (status_code response =? 200)%Z;
    [|now apply silent_with_ret].
  apply (silent_with_bind (fun _ => True));
    [apply silent_with_any, silent_response_json | intros data _].
  apply location_built_ok.
Qed.

Lemma secondary_lookup_ok (env : Env) (ip : string) (w : World) :
  exists o,
    secondary_lookup env ip w =
      (o, add_calls w [HttpGet (secondary_url ip)]) /\
    forall r, o = Ret r -> lookup_ok r.
Proof.
  unfold secondary_lookup, http_get. unfold bind at 1 2. unfold log, lift.
  fold (add_calls w [HttpGet (secondary_url ip)]).
  destruct (requests_get env (secondary_url ip)) as [response|e];
    [|exists (Raise e); split; [reflexivity|discriminate]].
  generalize (add_calls w [HttpGet (secondary_url ip)]).
  change (silent_with lookup_ok
    (if (status_code response =? 200)%Z
     then data <- response_json response ;;
          status <- lift (py_get data "status" JNull) ;;
          if py_eq_str status "success"
          then country <- lift (py_get data "country" (JStr "Unknown")) ;;
               city <- lift (py_get data "city" (JStr "Unknown")) ;;
               country' <- lift (slice_or_unknown country) ;;
               city' <- lift (slice_or_unknown city) ;;
               ret (Some {| loc_country := country'; loc_city := city' |})
          else ret None
     else ret None)).
  destruct (status_code response =? 200)%Z;
    [|now apply silent_with_ret].
  apply (silent_with_bind (fun _ => True));
    [apply silent_with_any, silent_response_json | intros data _].
  apply (silent_with_bind (fun _ => True));
    [apply silent_with_any, silent_lift | intros status _].
  destruct (py_eq_str status "success");
    [apply location_built_ok | now apply silent_with_ret].
Qed.

Lemma local_location_ok : location_ok local_location.
Proof. repeat split; simpl; lia. Qed.

Lemma unknown_location_ok : location_ok unknown_location.
Proof. repeat split; simpl; lia. Qed.

(** The geolocator never raises, and what it returns is never blank. *)
Lemma get_location_from_ip_ok (env : Env) (ip_address : option string)
    (w : World) :
  exists loc extra,
    get_location_from_ip env ip_address w = (Ret loc, add_calls w extra) /\
    location_ok loc.
Proof.
  unfold get_location_from_ip.
  destruct ip_address as [ip|].
  2:{ exists local_location, []. rewrite add_calls_nil.
      split; [reflexivity|apply local_location_ok]. }
  destruct (negb (str_truthy ip) || existsb (String.eqb ip) loopback_names).
  { exists local_location, []. rewrite add_calls_nil.
    split; [reflexivity|apply local_location_ok]. }
  unfold bind, try_except.
  destruct (primary_lookup_ok env ip w) as [o1 [-> H1]].
  destruct o1 as [[loc|]|e].
  - eexists loc, _. split; [reflexivity|]. exact (H1 (Some loc) eq_refl).
  - eexists unknown_location, _.
    split; [reflexivity|apply unknown_location_ok].
  - destruct (secondary_lookup_ok env ip
                (add_calls w [HttpGet (primary_url ip)])) as [o2 [-> H2]].
    rewrite add_calls_app.
    destruct o2 as [[loc|]|e2]; unfold ret.
    + eexists loc, _. split; [reflexivity|].
      exact (H2 (Some loc) eq_refl).
    + eexists unknown_location, _.
      split; [reflexivity|apply unknown_location_ok].
    + eexists unknown_location, _.
      split; [reflexivity|apply unknown_location_ok].
Qed.

(** X4.  The geolocator never raises, whatever the providers do.  It
    makes no request, or one request to the primary provider, or that one
    followed by one to the secondary provider; and each of the two values
    it returns is a non-empty string (or list) of at most 100 items, so a
    blank answer is never stored. *)
Theorem get_location_from_ip_contract (env : Env)
    (ip_address : option string) (w : World) :
  exists loc extra,
    get_location_from_ip env ip_address w = (Ret loc, add_calls w extra) /\
    (extra = [] \/
     exists ip, ip_address = Some ip /\
       (extra = [HttpGet (primary_url ip)] \/
        extra = [HttpGet (primary_url ip); HttpGet (secondary_url ip)])) /\
    location_ok loc.
Proof.
  unfold get_location_from_ip.
  destruct ip_address as [ip|].
  2:{ exists local_location, []. rewrite add_calls_nil.
      split; [reflexivity|]. split; [now left|apply local_location_ok]. }
  destruct (negb (str_truthy ip) || existsb (String.eqb ip) loopback_names).
  { exists local_location, []. rewrite add_calls_nil.
    split; [reflexivity|]. split; [now left|apply local_location_ok]. }
  unfold bind, try_except.
  destruct (primary_lookup_ok env ip w) as [o1 [-> H1]].
  destruct o1 as [[loc|]|e].
  - exists loc, [HttpGet (primary_url ip)]. split; [reflexivity|].
    split; [right; exists ip; auto|]. exact (H1 (Some loc) eq_refl).
  - exists unknown_location, [HttpGet (primary_url ip)].
    split; [reflexivity|].
    split; [right; exists ip; auto|apply unknown_location_ok].
  - destruct (secondary_lookup_ok env ip
                (add_calls w [HttpGet (primary_url ip)])) as [o2 [-> H2]].
    rewrite add_calls_app.
    destruct o2 as [[loc|]|e2]; unfold ret.
    + exists loc, [HttpGet (primary_url ip); HttpGet (secondary_url ip)].
      split; [reflexivity|].
      split; [right; exists ip; auto|]. exact (H2 (Some loc) eq_refl).
    + exists unknown_location,
        [HttpGet (primary_url ip); HttpGet (secondary_url ip)].
      split; [reflexivity|].
      split; [right; exists ip; auto|apply unknown_location_ok].
    + exists unknown_location,
        [HttpGet (primary_url ip); HttpGet (secondary_url ip)].
      split; [reflexivity|].
      split; [right; exists ip; auto|apply unknown_location_ok].
Qed.

Lemma not_local (ip : string) :
  ip <> "" -> ~ In ip loopback_names ->
  negb (str_truthy ip) || existsb (String.eqb ip) loopback_names = false.
Proof.
  intros Hne Hnot. apply str_truthy_true in Hne. rewrite Hne.
  cbn [negb orb]. apply not_true_iff_false. intros Hex.
  apply existsb_exists in Hex as (name & Hin & Heq).
  apply String.eqb_eq in Heq. now subst.
Qed.

Lemma slice_or_unknown_str (s : string) :
  slice_or_unknown (JStr s) = Ret (clip s).
Proof.
  unfold slice_or_unknown, slice100, clip. cbn [truthy].
  now destruct (str_truthy s).
Qed.

(** X5.  When the primary provider answers 200 with an object whose
    country name and city are strings, the geolocator returns them cut to
    100 characters, a blank one replaced by Unknown, and the secondary
    provider is not asked. *)
Theorem primary_answer_is_used (env : Env) (ip : string)
    (response : http_response) (d : list (string * jvalue))
    (c ct : string) (w : World) :
  ip <> "" -> ~ In ip loopback_names ->
  requests_get env (primary_url ip) = Ret response ->
  status_code response = 200%Z ->
  json response = Some (JObj d) ->
  dict_get d "country_name" (JStr "Unknown") = JStr c ->
  dict_get d "city" (JStr "Unknown") = JStr ct ->
  get_location_from_ip env (Some ip) w =
  (Ret {| loc_country := clip c; loc_city := clip ct |},
   add_calls w [HttpGet (primary_url ip)]).
Proof.
  intros Hne Hnot Hreq Hst Hjson Hc Hct.
  unfold get_location_from_ip. rewrite (not_local ip Hne Hnot).
  unfold bind at 1. unfold try_except at 1.
  assert (Hp : primary_lookup env ip w =
               (Ret (Some {| loc_country := clip c; loc_city := clip ct |}),
                add_calls w [HttpGet (primary_url ip)])).
  { unfold primary_lookup, http_get. unfold bind at 1 2. unfold log, lift.
    rewrite Hreq, Hst. cbn [Z.eqb Pos.eqb].
    unfold response_json. rewrite Hjson.
    unfold bind, ret, lift. cbn [py_get]. rewrite Hc, Hct.
    now rewrite !slice_or_unknown_str. }
  now rewrite Hp.
Qed.

Lemma primary_answer_is_used_witness :
  get_location_from_ip primary_up_env (Some "8.8.8.8") empty_world =
  (Ret {| loc_country := JStr "United States"; loc_city := JStr "Unknown" |},
   add_calls empty_world [HttpGet "https://ipapi.co/8.8.8.8/json/"]).
Proof.
  apply (primary_answer_is_used primary_up_env "8.8.8.8"
           {| status_code := 200;
              json := Some (JObj [("country_name", JStr "United States");
                                  ("city", JStr "")]) |}
           [("country_name", JStr "United States"); ("city", JStr "")]
           "United States" "" empty_world);
    try reflexivity.
  - discriminate.
  - cbn. intros [H|[H|[H|[]]]]; discriminate H.
Defined.

(** X6.  When the request to the primary provider raises, the secondary
    provider is asked, and its 200 answer (an object with string country
    and city) is taken only if its [status] is the string [success];
    otherwise the location is Unknown/Unknown. *)
Theorem secondary_answer_needs_success (env : Env) (ip : string) (e : exn)
    (response : http_response) (d : list (string * jvalue))
    (c ct : string) (w : World) :
  ip <> "" -> ~ In ip loopback_names ->
  requests_get env (primary_url ip) = Raise e ->
  requests_get env (secondary_url ip) = Ret response ->
  status_code response = 200%Z ->
  json response = Some (JObj d) ->
  dict_get d "country" (JStr "Unknown") = JStr c ->
  dict_get d "city" (JStr "Unknown") = JStr ct ->
  get_location_from_ip env (Some ip) w =
  (Ret (if py_eq_str (dict_get d "status" JNull) "success"
        then {| loc_country := clip c; loc_city := clip ct |}
        else unknown_location),
   add_calls w [HttpGet (primary_url ip); HttpGet (secondary_url ip)]).
Proof.
  intros Hne Hnot Hreq1 Hreq2 Hst Hjson Hc Hct.
  unfold get_location_from_ip. rewrite (not_local ip Hne Hnot).
  unfold bind at 1. unfold try_except at 1.
  assert (Hp : primary_lookup env ip w =
               (Raise e, add_calls w [HttpGet (primary_url ip)])).
  { unfold primary_lookup, http_get. unfold bind at 1 2. unfold log, lift.
    now rewrite Hreq1. }
  rewrite Hp. unfold try_except.
  assert (Hs : secondary_lookup env ip
                 (add_calls w [HttpGet (primary_url ip)]) =
               (Ret (if py_eq_str (dict_get d "status" JNull) "success"
                     then Some {| loc_country := clip c;
                                  loc_city := clip ct |}
                     else None),
                add_calls w [HttpGet (primary_url ip);
                             HttpGet (secondary_url ip)])).
  { unfold secondary_lookup, http_get. unfold bind at 1 2.
    unfold log, lift. rewrite Hreq2, Hst. cbn [Z.eqb Pos.eqb].
    unfold response_json. rewrite Hjson.
    fold (add_calls (add_calls w [HttpGet (primary_url ip)])
            [HttpGet (secondary_url ip)]).
    rewrite add_calls_app.
    unfold bind, ret, lift. cbn [py_get].
    destruct (py_eq_str (dict_get d "status" JNull) "success");
      [|reflexivity].
    rewrite Hc, Hct. now rewrite !slice_or_unknown_str. }
  rewrite Hs.
  now destruct (py_eq_str (dict_get d "status" JNull) "success").
Qed.

Lemma secondary_answer_needs_success_witness :
  get_location_from_ip primary_down_env (Some "8.8.8.8") empty_world =
  (Ret {| loc_country := JStr "United States";
          loc_city := JStr "Mountain View" |},
   add_calls empty_world [HttpGet "https://ipapi.co/8.8.8.8/json/";
                          HttpGet "http://ip-api.com/json/8.8.8.8"]).
Proof.
  apply (secondary_answer_needs_success primary_down_env "8.8.8.8"
           RequestException mountain_view
           [("status", JStr "success"); ("country", JStr "United States");
            ("city", JStr "Mountain View")]
           "United States" "Mountain View" empty_world);
    try reflexivity.
  - discriminate.
  - cbn. intros [H|[H|[H|[]]]]; discriminate H.
Defined.

(** ** Short codes and short URLs *)

Lemma append_cancel_l (a x y : string) : a +:+ x = a +:+ y -> x = y.
Proof.
  induction a as [|c a IH]; cbn [String.append]; [auto|].
  intros [= H]. auto.
Qed.

(** X7.  The short URL always uses the https scheme; the name of the
    link's own domain takes precedence over the host of the request; and
    on one host two links have the same short URL exactly when they have
    the same short code. *)
Theorem get_short_url_identifies_code (a b : ShortenedURL)
    (domain host : option string) :
  String.prefix "https://" (get_short_url a domain host) = true /\
  (forall name, get_short_url a (Some name) host =
                get_short_url a (Some name) None) /\
  (get_short_url a domain host = get_short_url b domain host <->
   short_code a = short_code b).
Proof.
  split; [|split].
  - apply prefix_iff_append. unfold get_short_url. eauto.
  - reflexivity.
  - unfold get_short_url. split.
    + intros H. now do 3 apply append_cancel_l in H.
    + now intros ->.
Qed.

Lemma string_of_list_ascii_length (l : list ascii) :
  String.length (string_of_list_ascii l) = length l.
Proof. induction l as [|c l IH]; simpl; [reflexivity|now rewrite IH]. Qed.

Lemma characters_are_alnum (i : nat) :
  i < String.length characters -> is_alnum (char_at characters i) = true.
Proof.
  intros Hi.
  assert (H : forallb (fun i => is_alnum (char_at characters i))
                (seq 0 (String.length characters)) = true)
    by (vm_compute; reflexivity).
  rewrite forallb_forall in H. apply H, in_seq. lia.
Qed.

(** X8.  Whatever the random generator draws, a generated short code has
    exactly six characters, each of them an ASCII letter or digit. *)
Theorem generate_short_code_shape (randbelow : nat -> nat -> nat) :
  (forall k n, 0 < n -> randbelow k n < n) ->
  String.length (generate_short_code randbelow) = 6 /\
  forall c, In c (list_ascii_of_string (generate_short_code randbelow)) ->
            is_alnum c = true.
Proof.
  intros Hrand. unfold generate_short_code. split.
  - rewrite string_of_list_ascii_length, length_map. reflexivity.
  - intros c. rewrite list_ascii_of_string_of_list_ascii.
    intros Hin. apply in_map_iff in Hin as (k & <- & _).
    apply characters_are_alnum, Hrand. vm_compute. lia.
Qed.

Lemma generate_short_code_shape_witness :
  String.length (generate_short_code (fun k n => (7 * k + 3) mod n)) = 6.
Proof.
  apply (generate_short_code_shape (fun k n => (7 * k + 3) mod n)).
  intros k n Hn. apply Nat.mod_upper_bound. lia.
Defined.

(** ** Protection of a link *)

(** X9.  After [set_password] the link is protected exactly when the raw
    password was not empty; setting the empty password removes the
    protection, after which every candidate is accepted; and no other
    field of the link is touched: target, short code, title,
    description, counter, activity flag, the three timestamps and the
    quota are those of the link before. *)
Theorem set_password_protects (env : Env) (salt : string)
    (self : ShortenedURL) (raw_password : string) :
  (forall s r, make_password env s r <> "") ->
  has_password (set_password env salt self raw_password) =
    str_truthy raw_password /\
  (raw_password = "" ->
   forall x, check_password env
               (set_password env salt self raw_password) x = true) /\
  original_url (set_password env salt self raw_password) =
    original_url self /\
  short_code (set_password env salt self raw_password) = short_code self /\
  title (set_password env salt self raw_password) = title self /\
  description (set_password env salt self raw_password) =
    description self /\
  clicks (set_password env salt self raw_password) = clicks self /\
  is_active (set_password env salt self raw_password) = is_active self /\
  created_at (set_password env salt self raw_password) = created_at self /\
  updated_at (set_password env salt self raw_password) = updated_at self /\
  expires_at (set_password env salt self raw_password) = expires_at self /\
  max_clicks (set_password env salt self raw_password) = max_clicks self /\
  set_password env salt self raw_password =
    with_password self (password (set_password env salt self raw_password)).
Proof.
  intros Hne. unfold set_password, has_password.
  destruct (str_truthy raw_password) eqn:Hraw; cbn [password with_password].
  - split; [now apply str_truthy_true|].
    split; [intros ->; discriminate|].
    repeat split.
  - split; [reflexivity|].
    split; [intros _ x; reflexivity|].
    repeat split.
Qed.

Lemma set_password_protects_witness :
  has_password (set_password sample_env "salt" sample_link "hunter2") = true.
Proof.
  apply (set_password_protects sample_env "salt" sample_link "hunter2").
  intros s r. discriminate.
Defined.

(** ** The address of the client *)

Lemma before_comma_has_no_comma (s : string) :
  ~ In ","%char (list_ascii_of_string (before_comma s)).
Proof.
  induction s as [|c s IH]; simpl; [tauto|].
  destruct (Ascii.eqb c ",") eqn:Hc; simpl; [tauto|].
  intros [H|H]; [|now apply IH].
  apply Ascii.eqb_neq in Hc. congruence.
Qed.

Lemma before_comma_split (s : string) :
  s = before_comma s \/ exists rest, s = before_comma s +:+ "," +:+ rest.
Proof.
  induction s as [|c s IH]; cbn [before_comma]; [now left|].
  destruct (Ascii.eqb c ",") eqn:Hc.
  - apply Ascii.eqb_eq in Hc. subst c. right. now exists s.
  - destruct IH as [IH | [rest IH]].
    + left. now rewrite <- IH.
    + right. exists rest.
      change (String c s = String c (before_comma s +:+ "," +:+ rest)).
      now f_equal.
Qed.

(** X10.  With a non-empty [X-Forwarded-For] header the client address
    is the part of the header before its first comma: it contains no
    comma, and the header is that address alone or that address followed
    by a comma and the rest.  Without the header, or with an empty one,
    the client address is [REMOTE_ADDR]. *)
Theorem get_client_ip_first_hop (request : Request) :
  (forall h, HTTP_X_FORWARDED_FOR request = Some h -> h <> "" ->
     exists ip,
       get_client_ip request = Some ip /\
       ~ In ","%char (list_ascii_of_string ip) /\
       (h = ip \/ exists rest, h = ip +:+ "," +:+ rest)) /\
  (HTTP_X_FORWARDED_FOR request = None \/
   HTTP_X_FORWARDED_FOR request = Some "" ->
   get_client_ip request = REMOTE_ADDR request).
Proof.
  unfold get_client_ip. split.
  - intros h -> Hne. apply str_truthy_true in Hne. rewrite Hne.
    exists (before_comma h). split; [reflexivity|].
    split; [apply before_comma_has_no_comma | apply before_comma_split].
  - intros [-> | ->]; reflexivity.
Qed.

Lemma get_client_ip_first_hop_witness :
  exists ip,
    get_client_ip
      {| HTTP_X_FORWARDED_FOR := Some "203.0.113.7, 10.0.0.1";
         REMOTE_ADDR := Some "10.0.0.1";
         HTTP_USER_AGENT := None; HTTP_REFERER := None; session := ∅ |}
      = Some ip /\
    ~ In ","%char (list_ascii_of_string ip) /\
    ("203.0.113.7, 10.0.0.1" = ip \/
     exists rest, "203.0.113.7, 10.0.0.1" = ip +:+ "," +:+ rest).
Proof.
  apply (proj1 (get_client_ip_first_hop
                  {| HTTP_X_FORWARDED_FOR := Some "203.0.113.7, 10.0.0.1";
                     REMOTE_ADDR := Some "10.0.0.1";
                     HTTP_USER_AGENT := None; HTTP_REFERER := None;
                     session := ∅ |}) "203.0.113.7, 10.0.0.1").
  - reflexivity.
  - discriminate.
Defined.

(** ** The redirect view, every case *)

(** What the view does, by cases on the stored link, on the client
    address of the request and on the target of the link. *)
Lemma RedirectView_get_cases (env : Env) (request : Request)
    (code : string) (w : World) :
  (links w !! code = None /\
   RedirectView_get env request code w = (Raise Http404, w)) \/
  (exists link,
      links w !! code = Some link /\
      can_be_accessed env link = false /\
      RedirectView_get env request code w = (Ret unavailable_page, w)) \/
  (exists link,
      links w !! code = Some link /\
      can_be_accessed env link = true /\
      has_password link && negb (session_verified request code) = true /\
      RedirectView_get env request code w =
      (Ret (HttpResponseRedirect (reverse_password_prompt code)), w)) \/
  (exists link extra,
      links w !! code = Some link /\
      can_be_accessed env link = true /\
      has_password link && negb (session_verified request code) = false /\
      opt_str_truthy (get_client_ip request) = false /\
      RedirectView_get env request code w =
      (Raise IntegrityError, add_calls w extra)) \/
  (exists link click extra,
      links w !! code = Some link /\
      can_be_accessed env link = true /\
      has_password link && negb (session_verified request code) = false /\
      opt_str_truthy (get_client_ip request) = true /\
      url click = short_code link /\
      RedirectView_get env request code w =
      ((if redirect_accepted env (original_url link)
        then redirect_to_target link
        else Raise DisallowedRedirect),
       {| links := <[short_code link :=
                       with_updated_at (with_clicks link (clicks link + 1))
                         (now env)]> (links w);
          click_records := click_records w ++ [click];
          calls := calls w ++ extra |})).
Proof.
  destruct (links w !! code) as [link|] eqn:Hlink.
  - right. destruct (can_be_accessed env link) eqn:Hok.
    + right.
      destruct (has_password link && negb (session_verified request code))
        eqn:Hpw.
      * left. exists link. repeat split; auto.
        unfold RedirectView_get, try_except. unfold bind at 1.
        unfold load_and_check, bind, get_object_or_404.
        now rewrite Hlink, Hok, Hpw.
      * right.
        destruct (RedirectView_get_passed env request code link w
                    Hlink Hok Hpw)
          as [(Hip & extra & H) | (Hip & click & extra & Hurl & H)].
        -- left. exists link, extra. repeat split; auto.
        -- right. exists link, click, extra. repeat split; auto.
    + left. exists link. repeat split; auto.
      now apply (RedirectView_get_denied env request code link w).
  - left. split; [reflexivity|].
    unfold RedirectView_get, try_except. unfold bind at 1.
    unfold load_and_check, bind, get_object_or_404.
    now rewrite Hlink.
Qed.

(** X11.  No request records a click without counting it, or counts
    without recording.  Every call of the view ends in one of three ways.
    - It answers [Http404], the unavailable page or the redirect to the
      password prompt, and leaves the world exactly as it was.
    - The request carries no client address: the click row is refused by
      the database, the view raises [IntegrityError], links and click
      rows are as they were, and only the log of outside calls may have
      grown.
    - Exactly one click row, for the link, has been appended and the
      stored counter of the link is the loaded one plus one; the answer
      is the redirect to the target, or [DisallowedRedirect] when the
      redirect response refuses the target: the click is recorded and
      counted all the same. *)
Theorem click_recorded_iff_counted (env : Env) (request : Request)
    (code : string) (w : World) :
  ((RedirectView_get env request code w).2 = w /\
   ((RedirectView_get env request code w).1 = Raise Http404 \/
    (RedirectView_get env request code w).1 = Ret unavailable_page \/
    (RedirectView_get env request code w).1 =
      Ret (HttpResponseRedirect (reverse_password_prompt code)))) \/
  (opt_str_truthy (get_client_ip request) = false /\
   exists extra,
     RedirectView_get env request code w =
     (Raise IntegrityError,
      {| links := links w;
         click_records := click_records w;
         calls := calls w ++ extra |})) \/
  (opt_str_truthy (get_client_ip request) = true /\
   exists link click extra,
     links w !! code = Some link /\
     url click = short_code link /\
     RedirectView_get env request code w =
     ((if redirect_accepted env (original_url link)
       then Ret (HttpResponseRedirect (original_url link))
       else Raise DisallowedRedirect),
      {| links := <[short_code link :=
                      with_updated_at (with_clicks link (clicks link + 1))
                        (now env)]> (links w);
         click_records := click_records w ++ [click];
         calls := calls w ++ extra |})).
Proof.
  destruct (RedirectView_get_cases env request code w)
    as [[_ H] | [(link & _ & _ & H) | [(link & _ & _ & _ & H) |
        [(link & extra & _ & _ & _ & Hip & H) |
         (link & click & extra & Hl & _ & _ & Hip & Hurl & H)]]]].
  - left. rewrite H. split; [reflexivity|]. now left.
  - left. rewrite H. split; [reflexivity|]. right. now left.
  - left. rewrite H. split; [reflexivity|]. right. now right.
  - right. left. split; [exact Hip|]. now exists extra.
  - right. right. split; [exact Hip|]. now exists link, click, extra.
Qed.

(** X12.  A short code that is not stored makes the view raise [Http404]
    and change nothing; a link that is accessible, has a password and is
    not yet verified in the session is answered with a redirect to the
    password prompt of that code, and nothing is recorded or counted. *)
Theorem unknown_or_protected_changes_nothing (env : Env)
    (request : Request) (code : string) (w : World) :
  (links w !! code = None ->
   RedirectView_get env request code w = (Raise Http404, w)) /\
  (forall link,
      links w !! code = Some link ->
      can_be_accessed env link = true ->
      password link <> "" ->
      session request !! ("password_verified_" +:+ code) <> Some true ->
      RedirectView_get env request code w =
      (Ret (HttpResponseRedirect ("/password/" +:+ code +:+ "/")), w)).
Proof.
  split.
  - intros Hnone.
    unfold RedirectView_get, try_except. unfold bind at 1.
    unfold load_and_check, bind, get_object_or_404.
    now rewrite Hnone.
  - intros link Hlink Hok Hpw Hsess.
    unfold RedirectView_get, try_except. unfold bind at 1.
    unfold load_and_check, bind, get_object_or_404.
    rewrite Hlink, Hok. cbn [negb].
    apply str_truthy_true in Hpw. unfold has_password. rewrite Hpw.
    unfold session_verified.
    destruct (session request !! ("password_verified_" +:+ code))
      as [[|]|]; [congruence| |]; reflexivity.
Qed.

Lemma unknown_or_protected_changes_nothing_witness :
  RedirectView_get sample_env sample_request "nosuch" sample_world =
  (Raise Http404, sample_world).
Proof.
  apply (proj1 (unknown_or_protected_changes_nothing sample_env
                  sample_request "nosuch" sample_world)).
  reflexivity.
Defined.

(** X13.  The view never answers with the [core/404.html] template: its
    [except ShortenedURL.DoesNotExist] clause cannot be reached, because
    the lookup signals a missing link with [Http404]. *)
Theorem not_found_template_is_never_rendered (env : Env)
    (request : Request) (code : string) (w : World) :
  (RedirectView_get env request code w).1 <>
  Ret (Render "core/404.html" 404).
Proof.
  destruct (RedirectView_get_cases env request code w)
    as [[_ H] | [(link & _ & _ & H) | [(link & _ & _ & _ & H) |
        [(link & extra & _ & _ & _ & _ & H) |
         (link & click & extra & _ & _ & _ & _ & _ & H)]]]];
    rewrite H; cbn [fst]; try discriminate.
  unfold redirect_to_target.
  destruct (redirect_accepted env (original_url link)); discriminate.
Qed.

(** ** What a recorded click holds *)

(** X14.  Recording a click, whatever the providers and the parsing
    library do.  For a request that carries a client address it returns
    normally, appends exactly one row and touches no link; the row holds
    the short code of the link, the client address, the user-agent and
    referer headers as received (the empty string when absent) and the
    time of the request.  For a request without a client address (none,
    or an empty one) the database refuses the row: [IntegrityError] is
    raised, no row is appended and no link is touched. *)
Theorem track_click_records_request (env : Env) (request : Request)
    (link : ShortenedURL) (w : World) :
  (opt_str_truthy (get_client_ip request) = true ->
   exists click extra,
     track_click env request link w =
     (Ret click,
      {| links := links w;
         click_records := click_records w ++ [click];
         calls := calls w ++ extra |}) /\
     url click = short_code link /\
     ip_address click = get_client_ip request /\
     user_agent click = default "" (HTTP_USER_AGENT request) /\
     referer click = default "" (HTTP_REFERER request) /\
     clicked_at click = Some (now env)) /\
  (opt_str_truthy (get_client_ip request) = false ->
   exists extra,
     track_click env request link w =
     (Raise IntegrityError,
      {| links := links w;
         click_records := click_records w;
         calls := calls w ++ extra |})).
Proof.
  split.
  - intros Hip.
    destruct (track_click_effect env request link w Hip)
      as (click & extra & Hrun & Hraw).
    exists click, extra. split; [exact Hrun|].
    unfold raw_fields in Hraw. injection Hraw as Hu Hi Ha Hr Hc.
    now repeat split.
  - intros Hip.
    destruct (track_click_refused env request link w Hip) as (extra & H).
    now exists extra.
Qed.

Lemma track_click_records_request_witness :
  exists click extra,
    track_click sample_env sample_request sample_link sample_world =
    (Ret click,
     {| links := links sample_world;
        click_records := click_records sample_world ++ [click];
        calls := calls sample_world ++ extra |}) /\
    url click = short_code sample_link /\
    ip_address click = get_client_ip sample_request /\
    user_agent click = default "" (HTTP_USER_AGENT sample_request) /\
    referer click = default "" (HTTP_REFERER sample_request) /\
    clicked_at click = Some (now sample_env).
Proof.
  apply (proj1 (track_click_records_request sample_env sample_request
                  sample_link sample_world)).
  reflexivity.
Defined.

(** ** Counter and click rows under sequential service *)

Lemma rows_for_app (code : string) (w : World) (click : Click)
    (ls : gmap string ShortenedURL) (cs : list event) :
  rows_for code
    {| links := ls; click_records := click_records w ++ [click];
       calls := cs |} =
  rows_for code w + (if String.eqb (url click) code then 1 else 0).
Proof.
  unfold rows_for. cbn [click_records].
  rewrite List.filter_app, length_app. cbn [List.filter].
  now destruct (String.eqb (url click) code).
Qed.

(** One request keeps counter and rows in step: when the row is refused
    neither moves, and once the row is stored the counter is written
    whether or not the redirect response is built afterwards. *)
Lemma RedirectView_get_in_step (env : Env) (request : Request)
    (code : string) (link : ShortenedURL) (w : World) :
  links w !! code = Some link ->
  short_code link = code ->
  exists link',
    links (RedirectView_get env request code w).2 !! code = Some link' /\
    short_code link' = code /\
    clicks link' + rows_for code w =
    clicks link + rows_for code (RedirectView_get env request code w).2.
Proof.
  intros Hlink Hcode.
  destruct (can_be_accessed env link) eqn:Hok.
  2:{ rewrite (RedirectView_get_denied env request code link w Hlink Hok).
      exists link. now repeat split. }
  destruct (has_password link && negb (session_verified request code))
    eqn:Hpw.
  { exists link.
    assert (H : RedirectView_get env request code w =
                (Ret (HttpResponseRedirect (reverse_password_prompt code)),
                 w)).
    { unfold RedirectView_get, try_except. unfold bind at 1.
      unfold load_and_check, bind, get_object_or_404.
      now rewrite Hlink, Hok, Hpw. }
    rewrite H. now repeat split. }
  destruct (RedirectView_get_passed env request code link w Hlink Hok Hpw)
    as [(_ & extra & ->) | (_ & click & extra & Hurl & ->)].
  - exists link. cbn [snd add_calls links].
    split; [exact Hlink|]. split; [exact Hcode|]. reflexivity.
  - cbn [snd links].
    eexists. split; [rewrite Hcode; apply lookup_insert_eq|].
    split; [exact Hcode|].
    rewrite rows_for_app. rewrite Hurl, Hcode, String.eqb_refl.
    cbn [clicks with_updated_at with_clicks]. lia.
Qed.

(** X15.  Served one after another, any requests for a stored link, by
    any clients and with any outcomes, keep the counter and the click
    rows of the link in step: the counter grows by exactly the number of
    rows recorded for the link. *)
Theorem counter_matches_rows (requests : list (Env * Request)) :
  forall (code : string) (link : ShortenedURL) (w : World),
    links w !! code = Some link ->
    short_code link = code ->
    exists link',
      links (serve_all requests code w).2 !! code = Some link' /\
      short_code link' = code /\
      clicks link' + rows_for code w =
      clicks link + rows_for code (serve_all requests code w).2.
Proof.
  induction requests as [|[env request] rest IH];
    intros code link w Hlink Hcode.
  - exists link. now repeat split.
  - cbn [serve_all].
    destruct (RedirectView_get_in_step env request code link w Hlink Hcode)
      as (link1 & Hl1 & Hc1 & Hstep).
    destruct (RedirectView_get env request code w) as [o w1].
    cbn [snd] in *.
    destruct (IH code link1 w1 Hl1 Hc1) as (link' & Hl' & Hc' & Hrest).
    destruct (serve_all rest code w1) as [os w2]. cbn [snd] in *.
    exists link'. split; [exact Hl'|]. split; [exact Hc'|]. lia.
Qed.

Lemma counter_matches_rows_witness :
  exists link',
    links (serve_all [(sample_env, sample_request);
                      (primary_down_env, sample_request)]
             "abc123" sample_world).2 !! "abc123" = Some link' /\
    short_code link' = "abc123" /\
    clicks link' + rows_for "abc123" sample_world =
    clicks sample_link +
    rows_for "abc123"
      (serve_all [(sample_env, sample_request);
                  (primary_down_env, sample_request)]
         "abc123" sample_world).2.
Proof.
  apply (counter_matches_rows
           [(sample_env, sample_request); (primary_down_env, sample_request)]
           "abc123" sample_link sample_world); reflexivity.
Defined.

(** ** The password prompt *)

(** What the prompt view does, by cases on the stored link and on the
    form.  Storage and the call log are never touched. *)
Lemma PasswordPromptView_post_cases (env : Env) (request : Request)
    (code : string) (form : option string) (w : World) :
  PasswordPromptView_post env request code form w =
  (match links w !! code with
   | None => Raise Http404
   | Some link =>
       if negb (can_be_accessed env link)
       then Ret (Plain unavailable_page,
                 {| entries := session request; expiry := None |})
       else
         match form with
         | Some password =>
             if check_password env link password
             then Ret (Plain (HttpResponseRedirect (reverse_redirect code)),
                       {| entries :=
                            <["password_verified_" +:+ code := true]>
                              (session request);
                          expiry := Some 3600%Z |})
             else Ret (Prompt (Some "Incorrect password. Please try again."),
                       {| entries := session request; expiry := None |})
         | None =>
             Ret (Prompt None,
                  {| entries := session request; expiry := None |})
         end
   end, w).
Proof.
  unfold PasswordPromptView_post, try_except, bind, get_object_or_404.
  destruct (links w !! code) as [link|]; [|reflexivity].
  destruct (negb (can_be_accessed env link)); [reflexivity|].
  destruct form as [password|]; [|reflexivity].
  now destruct (check_password env link password).
Qed.

(** X16.  The prompt view never writes to storage and never calls out.
    It marks the short code as verified in the session, for 3600 seconds,
    only when the link is stored, can be accessed, the form is valid and
    [check_password] accepts the posted password; in that case it
    redirects to the short URL.  In every other case the session is left
    as it was. *)
Theorem session_marked_only_after_check (env : Env) (request : Request)
    (code : string) (form : option string) (w : World) :
  exists o,
    PasswordPromptView_post env request code form w = (o, w) /\
    forall r s, o = Ret (r, s) ->
      (entries s = session request /\ expiry s = None /\
       r <> Plain (HttpResponseRedirect (reverse_redirect code))) \/
      (entries s =
         <["password_verified_" +:+ code := true]> (session request) /\
       expiry s = Some 3600%Z /\
       r = Plain (HttpResponseRedirect ("/" +:+ code +:+ "/")) /\
       exists link password,
         links w !! code = Some link /\
         can_be_accessed env link = true /\
         form = Some password /\
         check_password env link password = true).
Proof.
  rewrite PasswordPromptView_post_cases. eexists. split; [reflexivity|].
  intros r s.
  destruct (links w !! code) as [link|]; [|discriminate].
  destruct (can_be_accessed env link) eqn:Hok; cbn [negb].
  2:{ intros [= <- <-]. left. now repeat split. }
  destruct form as [password|].
  2:{ intros [= <- <-]. left. now repeat split. }
  destruct (check_password env link password) eqn:Hchk.
  - intros [= <- <-]. right. repeat split. now exists link, password.
  - intros [= <- <-]. left. now repeat split.
Qed.



(** ** The kill switch *)

(** X18.  Toggling an active link answers [is_active = false] and stores
    the link inactive.  Every request that loads the link from the world
    the toggle left, at any time and from any client, gets the
    unavailable page and changes nothing.  The switch does not bind a
    request already in flight: one that loaded the link before the toggle
    and has yet to write it back stores its own copy, activity flag
    included, so that the link is served again.  Toggling the stored link
    again answers [true] and restores the link: its policy fields and its
    counter are those it had. *)
Theorem toggle_is_kill_switch (env env2 : Env) (link : ShortenedURL)
    (w : World) :
  is_active link = true ->
  exists w1 link1 w2 link2,
    toggle_link env link w = (Ret false, w1) /\
    links w1 !! short_code link = Some link1 /\
    is_active link1 = false /\
    (forall env' request,
        RedirectView_get env' request (short_code link) w1 =
        (Ret unavailable_page, w1)) /\
    (forall t u,
        t_pc t = AtUpdate u ->
        short_code u = short_code link ->
        exists link',
          links (thread_step t w1).2 !! short_code link = Some link' /\
          is_active link' = is_active u /\
          clicks link' = clicks u + 1) /\
    toggle_link env2 link1 w1 = (Ret true, w2) /\
    links w2 !! short_code link = Some link2 /\
    same_policy link2 link /\
    clicks link2 = clicks link /\
    click_records w2 = click_records w /\
    calls w2 = calls w.
Proof.
  intros Hact.
  unfold toggle_link, bind, ShortenedURL_save, ret.
  cbn [is_active with_is_active short_code with_updated_at].
  rewrite Hact. cbn [negb].
  eexists _, _, _, _. split; [reflexivity|].
  cbn [links]. split; [apply lookup_insert_eq|].
  split; [reflexivity|].
  split.
  { intros env' request.
    eapply RedirectView_get_denied.
    - cbn [links]. apply lookup_insert_eq.
    - reflexivity. }
  split.
  { intros t u Ht Hu. rewrite (thread_step_update t _ u Ht).
    cbn [snd links]. rewrite Hu. eexists.
    split; [apply lookup_insert_eq|]. split; reflexivity. }
  cbn [is_active with_is_active with_updated_at short_code negb].
  split; [reflexivity|].
  cbn [links]. split; [apply lookup_insert_eq|].
  split; [|now repeat split].
  repeat split; cbn; auto.
Qed.

Lemma toggle_is_kill_switch_witness :
  exists w1 link1 w2 link2,
    toggle_link sample_env sample_link sample_world = (Ret false, w1) /\
    links w1 !! short_code sample_link = Some link1 /\
    is_active link1 = false /\
    (forall env' request,
        RedirectView_get env' request (short_code sample_link) w1 =
        (Ret unavailable_page, w1)) /\
    (forall t u,
        t_pc t = AtUpdate u ->
        short_code u = short_code sample_link ->
        exists link',
          links (thread_step t w1).2 !! short_code sample_link =
            Some link' /\
          is_active link' = is_active u /\
          clicks link' = clicks u + 1) /\
    toggle_link primary_up_env link1 w1 = (Ret true, w2) /\
    links w2 !! short_code sample_link = Some link2 /\
    same_policy link2 sample_link /\
    clicks link2 = clicks sample_link /\
    click_records w2 = click_records sample_world /\
    calls w2 = calls sample_world.
Proof.
  apply (toggle_is_kill_switch sample_env primary_up_env sample_link
           sample_world).
  reflexivity.
Defined.

(** ** Enrichment of loopback clicks and the backfill command *)

Lemma loopback_is_local (env : Env) (ip : string) (w : World) :
  In ip loopback_names ->
  opt_str_truthy (Some ip) = true /\
  get_location_from_ip env (Some ip) w = (Ret local_location, w).
Proof.
  cbn [In loopback_names].
  intros [<-|[<-|[<-|[]]]]; split; reflexivity.
Qed.

(** X19.  A click from a loopback address (127.0.0.1, ::1 or localhost)
    is enriched without any HTTP request, and its country and city are
    both Local. *)
Theorem loopback_click_is_local (env : Env) (self : Click) (ip : string)
    (w : World) :
  In ip loopback_names ->
  ip_address self = Some ip ->
  exists self' extra,
    populate_analytics_data env self w = (Ret self', add_calls w extra) /\
    country self' = JStr "Local" /\
    city self' = JStr "Local" /\
    forall u, ~ In (HttpGet u) extra.
Proof.
  intros Hloop Hip.
  unfold populate_analytics_data. unfold bind at 1.
  destruct (str_truthy (user_agent self)).
  - unfold bind at 1.
    destruct (parse_user_agent_total env (user_agent self) w)
      as (d & ex1 & -> & Hex1).
    unfold ret at 1. cbn [with_ua_data ip_address]. rewrite Hip.
    destruct (loopback_is_local env ip (add_calls w ex1) Hloop)
      as [-> Hgeo].
    unfold bind. rewrite Hgeo. unfold ret.
    eexists _, ex1. split; [reflexivity|].
    split; [reflexivity|]. split; [reflexivity|].
    intros u. now apply forallb_ua_not_http.
  - unfold ret at 1. rewrite Hip.
    destruct (loopback_is_local env ip w Hloop) as [-> Hgeo].
    unfold bind. rewrite Hgeo. unfold ret.
    exists (with_location self local_location), [].
    rewrite add_calls_nil. split; [reflexivity|].
    split; [reflexivity|]. split; [reflexivity|]. intros u [].
Qed.

Lemma loopback_click_is_local_witness :
  exists self' extra,
    populate_analytics_data primary_up_env
      (new_click "abc123" (Some "::1") "curl/8.0" "") sample_world =
      (Ret self', add_calls sample_world extra) /\
    country self' = JStr "Local" /\
    city self' = JStr "Local" /\
    forall u, ~ In (HttpGet u) extra.
Proof.
  apply (loopback_click_is_local primary_up_env
           (new_click "abc123" (Some "::1") "curl/8.0" "") "::1"
           sample_world).
  - right. left. reflexivity.
  - reflexivity.
Defined.

Lemma parse_user_agent_device_truthy (env : Env)
    (user_agent_string : string) (w : World) :
  exists d extra,
    parse_user_agent env user_agent_string w = (Ret d, add_calls w extra) /\
    str_truthy (ua_device_type d) = true.
Proof.
  assert (Hfb : str_truthy
                  (ua_device_type
                     (parse_user_agent_fallback user_agent_string)) = true).
  { pose proof (fallback_device_labels user_agent_string) as H.
    cbn [In] in H. destruct H as [<-|[<-|[<-|[]]]]; reflexivity. }
  unfold parse_user_agent.
  destruct (str_truthy user_agent_string); cbn [negb].
  2:{ exists unknown_ua, []. now rewrite add_calls_nil. }
  destruct (ua_parse env) as [parse|].
  2:{ eexists _, []. rewrite add_calls_nil. now split. }
  unfold try_except, parse_with_library. unfold bind at 1 2.
  unfold log, lift.
  fold (add_calls w [UaParse user_agent_string]).
  destruct (parse user_agent_string) as [user_agent|e].
  - eexists _, [UaParse user_agent_string]. split; [reflexivity|].
    cbn [ua_device_type]. split_ifs; reflexivity.
  - eexists _, [UaParse user_agent_string]. now split.
Qed.

(** In non-force mode a click whose fields are filled is left alone. *)
Lemma backfill_fields_noop (env : Env) (click : Click) (w : World) :
  str_truthy (user_agent click) &&
    negb (str_truthy (device_type click)) = false ->
  opt_str_truthy (ip_address click) &&
    negb (truthy (country click)) = false ->
  backfill_fields env false click w = (Ret click, w).
Proof.
  intros H1 H2. unfold backfill_fields. cbn [orb].
  rewrite H1. unfold bind, ret. now rewrite H2.
Qed.

(** X20.  The enrichment step of the backfill command, in its default
    (non-force) mode, never raises and never changes the key or the raw
    fields of a click; and it converges: applied again to its own result,
    at any later time and whatever the providers answer then, it changes
    nothing and makes no outside call. *)
Theorem backfill_converges (env env' : Env) (click : Click) (w w' : World) :
  exists filled extra,
    backfill_fields env false click w = (Ret filled, add_calls w extra) /\
    pk filled = pk click /\
    raw_fields filled = raw_fields click /\
    backfill_fields env' false filled w' = (Ret filled, w').
Proof.
  unfold backfill_fields at 1. cbn [orb]. unfold bind at 1.
  destruct (str_truthy (user_agent click) &&
            negb (str_truthy (device_type click))) eqn:H1.
  - unfold bind at 1.
    destruct (parse_user_agent_device_truthy env (user_agent click) w)
      as (d & ex1 & -> & Hd).
    unfold ret at 1. cbn [with_ua_data ip_address country].
    destruct (opt_str_truthy (ip_address click) &&
              negb (truthy (country click))) eqn:H2.
    + destruct (negb (existsb
                  (fun s => bool_decide (ip_address click = Some s))
                  ["127.0.0.1"; "::1"])).
      * unfold bind.
        destruct (get_location_from_ip_ok env (ip_address click)
                    (add_calls w ex1)) as (loc & ex2 & -> & Hok).
        rewrite add_calls_app. unfold ret.
        eexists _, (ex1 ++ ex2)%list. split; [reflexivity|].
        split; [reflexivity|]. split; [reflexivity|].
        apply backfill_fields_noop; cbn.
        -- rewrite Hd. apply andb_false_r.
        -- destruct Hok as [[-> _] _]. apply andb_false_r.
      * unfold ret. eexists _, ex1. split; [reflexivity|].
        split; [reflexivity|]. split; [reflexivity|].
        apply backfill_fields_noop; cbn.
        -- rewrite Hd. apply andb_false_r.
        -- apply andb_false_r.
    + unfold ret. eexists _, ex1. split; [reflexivity|].
      split; [reflexivity|]. split; [reflexivity|].
      apply backfill_fields_noop; cbn.
      * rewrite Hd. apply andb_false_r.
      * exact H2.
  - unfold ret at 1.
    destruct (opt_str_truthy (ip_address click) &&
              negb (truthy (country click))) eqn:H2.
    + destruct (negb (existsb
                  (fun s => bool_decide (ip_address click = Some s))
                  ["127.0.0.1"; "::1"])).
      * unfold bind.
        destruct (get_location_from_ip_ok env (ip_address click) w)
          as (loc & ex2 & -> & Hok).
        unfold ret. eexists _, ex2. split; [reflexivity|].
        split; [reflexivity|]. split; [reflexivity|].
        apply backfill_fields_noop; cbn.
        -- exact H1.
        -- destruct Hok as [[-> _] _]. apply andb_false_r.
      * unfold ret. eexists _, []. rewrite add_calls_nil.
        split; [reflexivity|].
        split; [reflexivity|]. split; [reflexivity|].
        apply backfill_fields_noop; cbn.
        -- exact H1.
        -- apply andb_false_r.
    + unfold ret. exists click, []. rewrite add_calls_nil.
      split; [reflexivity|]. split; [reflexivity|]. split; [reflexivity|].
      now apply backfill_fields_noop.
Qed.
